(** * chat_app: presence, routing and history of the chat server (server.js)

    A shallow embedding of the socket.io part of [server.js] and of its
    routes [GET /api/messages], [GET /api/users], [POST /api/register] and
    [POST /api/login].  The server is a transition system over a
    [World] holding the server's own state (the [online] map, the connected
    sockets), the two MongoDB collections it reads and writes, and a trace of
    the effects it has had on the outside (documents stored, packets sent).

    Conventions.
    - ObjectIds of users are represented by their canonical string form, the
      form tokens and clients carry them in; ObjectIds of messages and
      socket.io's socket ids are fresh handles drawn from a counter (only
      their uniqueness is observable; a socket id is a non-empty string, hence
      always truthy).
    - Properties of client-supplied objects are string valued; an absent
      property reads as [None] (JavaScript [undefined]).
    - [jwt.verify] against [JWT_SECRET] is a parameter of the development;
      [jwt.sign], [bcrypt.hash] and [bcrypt.compare] are taken from a record
      of library calls ([Libraries]).
    - Whether MongoDB resolves or rejects each awaited call of the
      [private_message] handler, and the value of [Date.now()], are supplied
      with the input ([MongoEnv]): the theorems hold for every such choice.
    - A handler runs to completion before the next input is taken.
    - A rejection that no handler catches ends the Node process: all
      connections close and the [online] map is lost ([exited]). *)

From Stdlib Require Import ZArith Ascii String List Sorted Permutation Lia.
From stdpp Require Import base option strings list gmap.
Import ListNotations.

Local Open Scope string_scope.
Local Open Scope list_scope.

(** ** JavaScript values and idioms *)

Abbreviation UserId := string.
Abbreviation SocketId := nat.
Abbreviation ObjectId := nat.

(** Truthiness of a string-or-undefined value: [undefined] and [''] are falsy. *)
Definition truthy (v : option string) : bool :=
  match v with
  | Some s => negb (String.eqb s EmptyString)
  | None => false
  end.

(** [a || b] where both sides are string-or-undefined. *)
Definition js_or (a b : option string) : option string :=
  if truthy a then a else b.

(** [v || ''] *)
Definition js_or_str (v : option string) (d : string) : string :=
  match js_or v (Some d) with
  | Some s => s
  | None => d
  end.

(** [v || null]: the result is a string or [null] (here [None]). *)
Definition js_or_null (v : option string) : option string :=
  js_or v None.

(** [String(v)] *)
Definition String_of (v : option string) : string :=
  match v with
  | Some s => s
  | None => "undefined"
  end.

(** [s.split(sep)] for a one-character separator. *)
Fixpoint split_on (sep : ascii) (s : string) : list string :=
  match s with
  | EmptyString => [EmptyString]
  | String c r =>
      if Ascii.eqb c sep then EmptyString :: split_on sep r
      else match split_on sep r with
           | h :: t => String c h :: t
           | [] => [String c EmptyString]
           end
  end.

(** A client-supplied object: property name to value. *)
Abbreviation Payload := (gmap string string).

(** ** The insertion-ordered [Map] behind [online] *)

Abbreviation JsMap := (list (UserId * SocketId)).

Fixpoint Map_get (k : UserId) (m : JsMap) : option SocketId :=
  match m with
  | [] => None
  | (k', v) :: r => if String.eqb k k' then Some v else Map_get k r
  end.

(** [m.set(k, v)]: an existing key keeps its position, a new key goes last. *)
Fixpoint Map_set (k : UserId) (v : SocketId) (m : JsMap) : JsMap :=
  match m with
  | [] => [(k, v)]
  | (k', v') :: r =>
      if String.eqb k k' then (k', v) :: r else (k', v') :: Map_set k v r
  end.

(** [m.delete(k)] *)
Fixpoint Map_delete (k : UserId) (m : JsMap) : JsMap :=
  match m with
  | [] => []
  | (k', v') :: r =>
      if String.eqb k k' then Map_delete k r else (k', v') :: Map_delete k r
  end.

(** [Array.from(m.keys())] *)
Definition Map_keys (m : JsMap) : list UserId := map fst m.

(** ** Documents *)

(** The string form of a user's ObjectId, as a token carries it and as
    Mongoose casts it back for a query: 24 lower-case hexadecimal digits. *)
Definition is_hex_digit (c : ascii) : bool :=
  let n := nat_of_ascii c in
  (Nat.leb 48 n && Nat.leb n 57) || (Nat.leb 97 n && Nat.leb n 102).

Definition canonical_id (s : string) : bool :=
  Nat.eqb (String.length s) 24 && forallb is_hex_digit (list_ascii_of_string s).

(** The payload of a token: [{ id, email, displayName }] (see [createToken]). *)
Record Decoded := mkDecoded {
  d_id : UserId;
  d_email : string;
  d_displayName : string
}.

(** [userSchema] *)
Record UserDoc := mkUser {
  u_id : UserId;
  u_email : string;
  u_passwordHash : string;
  u_displayName : string
}.

(** [messageSchema]; [m_to] is unset when the intent had no [to]. *)
Record MessageDoc := mkMessage {
  m_id : ObjectId;
  m_from : UserId;
  m_to : option UserId;
  m_text : string;
  m_mediaUrl : option string;
  m_mediaType : option string;
  m_createdAt : Z
}.

(** What [Message.create] is called with. *)
Record MessageFields := mkFields {
  f_from : UserId;
  f_to : option UserId;
  f_text : string;
  f_mediaUrl : option string;
  f_mediaType : option string
}.

(** A user as selected by [populate('from', 'email displayName')]. *)
Record UserRef := mkUserRef {
  r_id : UserId;
  r_email : string;
  r_displayName : string
}.

(** A message document whose [from] has been populated ([None]: no such user). *)
Record Populated := mkPopulated {
  p_id : ObjectId;
  p_from : option UserRef;
  p_to : option UserId;
  p_text : string;
  p_mediaUrl : option string;
  p_mediaType : option string;
  p_createdAt : Z
}.

(** ** Sockets, packets and the world *)

Record Socket := mkSocket {
  s_id : SocketId;
  s_user : Decoded
}.

Inductive Packet : Type :=
| online_users (ids : list UserId)
| message (doc : option Populated)
| connect_error (msg : string).

(** Effects on the outside: a document written to the Message collection, a
    packet written to the client of a socket. *)
Inductive Effect : Type :=
| Stored (doc : MessageDoc)
| Emit (to : SocketId) (p : Packet).

Record World := mkWorld {
  users : list UserDoc;
  messages : list MessageDoc;
  next_oid : ObjectId;
  online : JsMap;
  sockets : list Socket;
  next_sid : SocketId;
  trace : list Effect
}.

(** The server starts with nobody connected, on whatever the two collections
    hold; generated message ids are fresh for the collection. *)
Definition fresh_oid (ms : list MessageDoc) : ObjectId :=
  list_max (map (fun m => S (m_id m)) ms).

Definition initial (us : list UserDoc) (ms : list MessageDoc) : World :=
  mkWorld us ms (fresh_oid ms) [] [] 0 [].

Definition with_online (m : JsMap) (w : World) : World :=
  mkWorld (users w) (messages w) (next_oid w) m (sockets w) (next_sid w) (trace w).

Definition with_sockets (ss : list Socket) (w : World) : World :=
  mkWorld (users w) (messages w) (next_oid w) (online w) ss (next_sid w) (trace w).

Definition with_next_sid (n : SocketId) (w : World) : World :=
  mkWorld (users w) (messages w) (next_oid w) (online w) (sockets w) n (trace w).

Definition log (es : list Effect) (w : World) : World :=
  mkWorld (users w) (messages w) (next_oid w) (online w) (sockets w) (next_sid w)
          (trace w ++ es).

Definition insert_message (doc : MessageDoc) (w : World) : World :=
  mkWorld (users w) (messages w ++ [doc]) (S (next_oid w)) (online w) (sockets w)
          (next_sid w) (trace w ++ [Stored doc]).

Definition find_socket (sid : SocketId) (ss : list Socket) : option Socket :=
  List.find (fun s => Nat.eqb (s_id s) sid) ss.

Definition remove_socket (sid : SocketId) (ss : list Socket) : list Socket :=
  List.filter (fun s => negb (Nat.eqb (s_id s) sid)) ss.

(** The packets written to socket [sid], oldest first. *)
Fixpoint received (sid : SocketId) (es : list Effect) : list Packet :=
  match es with
  | [] => []
  | Emit to p :: r => if Nat.eqb to sid then p :: received sid r else received sid r
  | Stored _ :: r => received sid r
  end.

(** ** Asynchronous handlers: state plus exceptions *)

Inductive Completion (A : Type) : Type :=
| Returned (a : A)
| Threw (err : string).
Arguments Returned {A} a.
Arguments Threw {A} err.

Definition Async (A : Type) : Type := World -> Completion A * World.

Definition resolve {A} (a : A) : Async A := fun w => (Returned a, w).

Definition await {A B} (c : Async A) (k : A -> Async B) : Async B :=
  fun w =>
    match c w with
    | (Returned a, w') => k a w'
    | (Threw err, w') => (Threw err, w')
    end.

Notation "x <~ c ;; k" := (await c (fun x => k))
  (at level 100, c at next level, right associativity).
Notation "c ;;; k" := (await c (fun _ => k))
  (at level 100, right associativity).

(** What the environment answers to one run of the [private_message] handler. *)
Record MongoEnv := mkEnv {
  now : Z;
  create_rejects : bool;
  find_rejects : bool
}.

(** [Message.create(fields)]: [_id] is generated, [createdAt] defaults to
    [Date.now]. *)
Definition Message_create (env : MongoEnv) (f : MessageFields) : Async MessageDoc :=
  fun w =>
    if create_rejects env then (Threw "Message.create rejected", w)
    else
      let doc := mkMessage (next_oid w) (f_from f) (f_to f) (f_text f)
                           (f_mediaUrl f) (f_mediaType f) (now env) in
      (Returned doc, insert_message doc w).

Definition select_user (u : UserDoc) : UserRef :=
  mkUserRef (u_id u) (u_email u) (u_displayName u).

Definition populate_from (us : list UserDoc) (m : MessageDoc) : Populated :=
  mkPopulated (m_id m)
    (option_map select_user (List.find (fun u => String.eqb (u_id u) (m_from m)) us))
    (m_to m) (m_text m) (m_mediaUrl m) (m_mediaType m) (m_createdAt m).

(** [Message.findById(id).populate('from', 'email displayName').exec()] *)
Definition Message_findById_populate (env : MongoEnv) (oid : ObjectId)
  : Async (option Populated) :=
  fun w =>
    if find_rejects env then (Threw "Message.findById rejected", w)
    else
      (Returned (option_map (populate_from (users w))
                   (List.find (fun m => Nat.eqb (m_id m) oid) (messages w))), w).

(** A packet reaches a socket only while that socket is connected. *)
Definition deliver (sid : SocketId) (p : Packet) : Async unit :=
  fun w =>
    match find_socket sid (sockets w) with
    | Some _ => (Returned tt, log [Emit sid p] w)
    | None => (Returned tt, w)
    end.

(** [socket.emit(ev, data)] *)
Definition socket_emit (socket : Socket) (p : Packet) : Async unit :=
  deliver (s_id socket) p.

(** [io.to(room).emit(ev, data)]: the only member of the room named after a
    socket id is that socket. *)
Definition io_to_emit (room : SocketId) (p : Packet) : Async unit :=
  deliver room p.

(** [io.emit(ev, data)]: every connected socket. *)
Definition io_emit (p : Packet) (w : World) : World :=
  log (map (fun s => Emit (s_id s) p) (sockets w)) w.

Definition online_get (k : UserId) : Async (option SocketId) :=
  fun w => (Returned (Map_get k (online w)), w).

(** ** Requests, handshakes and inputs *)

(** What [GET /api/messages] reads of a request: the [Authorization] header
    and the [with] query parameter. *)
Record Request := mkRequest {
  authorization : option string;
  query_with : option string
}.

(** [res.status(status).json({ error })] and [res.json({ messages })]. *)
Inductive Response : Type :=
| error_response (status : nat) (error : string)
| messages_response (msgs : list MessageDoc).

(** [socket.handshake.auth?.token] and [socket.handshake.query?.token]. *)
Record Handshake := mkHandshake {
  auth_token : option string;
  query_token : option string
}.

(** What happens to the server: a client opens a connection, a connected
    socket sends [private_message], a socket closes. *)
Inductive Input : Type :=
| Connection (hs : Handshake)
| PrivateMessage (sid : SocketId) (payload : Payload) (env : MongoEnv)
| Disconnect (sid : SocketId).

(** ** Observations used by the properties *)

(** Presence as the server sees it: [online.has(I)]. *)
Definition isOnline (w : World) (I : UserId) : bool :=
  match Map_get I (online w) with
  | Some _ => true
  | None => false
  end.

(** The snapshot that the [online_users] event carries. *)
Definition onlineIdentities (w : World) : list UserId := Map_keys (online w).

(** Identity [I] has at least one connected socket. *)
Definition has_open_session (w : World) (I : UserId) : bool :=
  existsb (fun s => String.eqb (d_id (s_user s)) I) (sockets w).

(** The effects that happened between an earlier world and a later one. *)
Definition since (w w' : World) : list Effect :=
  skipn (length (trace w)) (trace w').

(** The packets socket [sid] was sent between two worlds. *)
Definition new_packets (w w' : World) (sid : SocketId) : list Packet :=
  received sid (since w w').

Definition is_presence_or_message (p : Packet) : bool :=
  match p with
  | online_users _ | message _ => true
  | connect_error _ => false
  end.

(** Every packet of the effect goes to a socket id below [n]. *)
Definition targets_below (n : SocketId) (e : Effect) : Prop :=
  match e with
  | Emit sid _ => sid < n
  | Stored _ => True
  end.

(** Socket id [sid] has been handed out and is not connected. *)
Definition not_connected (sid : SocketId) (w : World) : Prop :=
  sid < next_sid w /\ ~ In sid (map s_id (sockets w)).

(** Every connected socket with id [sid] carries the identity [user]. *)
Definition bound_to (sid : SocketId) (user : Decoded) (w : World) : Prop :=
  sid < next_sid w /\ forall s, In s (sockets w) -> s_id s = sid -> s_user s = user.

(** The order of [.sort('createdAt')]. *)
Definition older_or_same (a b : MessageDoc) : Prop :=
  (m_createdAt a <= m_createdAt b)%Z.

(** The invariant of the server's state. *)
Record wf (w : World) : Prop := mk_wf {
  wf_sids_fresh : Forall (fun s => s_id s < next_sid w) (sockets w);
  wf_sids_nodup : List.NoDup (map s_id (sockets w));
  wf_online_owner :
    forall k sid, In (k, sid) (online w) ->
      exists s, In s (sockets w) /\ s_id s = sid /\ d_id (s_user s) = k;
  wf_online_nodup : List.NoDup (Map_keys (online w));
  wf_oids_fresh : Forall (fun m => m_id m < next_oid w) (messages w);
  wf_trace_fresh : Forall (targets_below (next_sid w)) (trace w)
}.

(** The document the [private_message] handler asks [Message.create] for,
    with the [_id] and [createdAt] it is given. *)
Definition created_doc (socket : Socket) (env : MongoEnv) (payload : Payload) (w : World)
  : MessageDoc :=
  mkMessage (next_oid w) (d_id (s_user socket)) (payload !! "to")
    (js_or_str (payload !! "text") EmptyString) (js_or_null (payload !! "mediaUrl"))
    (js_or_null (payload !! "mediaType")) (now env).

(** ** The account routes: bodies, replies and the User collection *)

(** [req.body] of [POST /api/register] and [POST /api/login]. *)
Record Credentials := mkCredentials {
  body_email : option string;
  body_password : option string;
  body_displayName : option string
}.

(** [{ user: { id, email, displayName }, token }] *)
Record Session := mkSession {
  session_user : UserRef;
  session_token : string
}.

(** What the environment answers to one run of an account route: the [_id]
    that [User.create] generates, the salt [bcrypt.hash] draws, and whether
    MongoDB rejects the awaited calls. *)
Record UserEnv := mkUserEnv {
  new_user_id : UserId;
  salt : string;
  findOne_rejects : bool;
  insert_rejects : bool
}.

Definition with_users (us : list UserDoc) (w : World) : World :=
  mkWorld us (messages w) (next_oid w) (online w) (sockets w) (next_sid w) (trace w).

(** [try { body } catch (e) { handler(e) }] around awaited calls. *)
Definition try_catch {A} (body : Async A) (handler : string -> Async A) : Async A :=
  fun w =>
    match body w with
    | (Returned a, w') => (Returned a, w')
    | (Threw err, w') => handler err w'
    end.

(** [User.findOne({ email })] *)
Definition User_findOne (env : UserEnv) (email : string) : Async (option UserDoc) :=
  fun w =>
    if findOne_rejects env then (Threw "User.findOne rejected", w)
    else (Returned (List.find (fun u => String.eqb (u_email u) email) (users w)), w).

(** [User.create({ email, passwordHash, displayName })] *)
Definition User_create (env : UserEnv) (email hash displayName : string) : Async UserDoc :=
  fun w =>
    if insert_rejects env then (Threw "User.create rejected", w)
    else
      let user := mkUser (new_user_id env) email hash displayName in
      (Returned user, with_users (users w ++ [user]) w).

(** The emails of the accounts, in collection order. *)
Definition emails (w : World) : list string := map u_email (users w).

(** The string has no space in it. *)
Fixpoint spaceless (s : string) : bool :=
  match s with
  | EmptyString => true
  | String c r => negb (Ascii.eqb c " "%char) && spaceless r
  end.

(** The [online_users] snapshots among the effects. *)
Fixpoint snapshots (es : list Effect) : list (list UserId) :=
  match es with
  | [] => []
  | Emit _ (online_users ids) :: r => ids :: snapshots r
  | _ :: r => snapshots r
  end.

(** The documents the [message] events among the effects carry. *)
Fixpoint delivered (es : list Effect) : list (option Populated) :=
  match es with
  | [] => []
  | Emit _ (message doc) :: r => doc :: delivered r
  | _ :: r => delivered r
  end.

(** The event document [d] is the stored document [doc] with its [from]
    populated. *)
Definition carries (doc : MessageDoc) (d : option Populated) : Prop :=
  exists p,
    d = Some p /\ p_id p = m_id doc /\ p_to p = m_to doc /\ p_text p = m_text doc /\
    p_mediaUrl p = m_mediaUrl doc /\ p_mediaType p = m_mediaType doc /\
    p_createdAt p = m_createdAt doc /\
    forall r, p_from p = Some r -> r_id r = m_from doc.

(** The library calls of the account routes:
    [jwt.sign(payload, JWT_SECRET, { expiresIn: '7d' })],
    [bcrypt.hash(password, 10)] with the salt it drew, and
    [bcrypt.compare(password, hash)]. *)
Record Libraries := mkLibraries {
  jwt_sign : Decoded -> string;
  bcrypt_hash : string -> string -> string;
  bcrypt_compare : string -> string -> bool
}.

Definition createToken (lib : Libraries) (user : UserDoc) : string :=
  jwt_sign lib (mkDecoded (u_id user) (u_email user) (u_displayName user)).

(** [app.post('/api/register', ...)] *)
Definition post_api_register (lib : Libraries) (env : UserEnv) (body : Credentials)
  : Async (Response + Session) :=
  try_catch
    (let email := body_email body in
     let password := body_password body in
     let displayName := body_displayName body in
     if negb (truthy email) || negb (truthy password)
     then resolve (inl (error_response 400 "email and password required"))
     else
       existing <~ User_findOne env (String_of email) ;;
       match existing with
       | Some _ => resolve (inl (error_response 400 "email already taken"))
       | None =>
           let hash := bcrypt_hash lib (salt env) (String_of password) in
           user <~ User_create env (String_of email) hash
                     (js_or_str displayName (String_of email)) ;;
           let token := createToken lib user in
           resolve (inr (mkSession (select_user user) token))
       end)
    (fun e => resolve (inl (error_response 500 "server error"))).

(** [app.post('/api/login', ...)] *)
Definition post_api_login (lib : Libraries) (env : UserEnv) (body : Credentials)
  : Async (Response + Session) :=
  try_catch
    (let email := body_email body in
     let password := body_password body in
     if negb (truthy email) || negb (truthy password)
     then resolve (inl (error_response 400 "email and password required"))
     else
       found <~ User_findOne env (String_of email) ;;
       match found with
       | None => resolve (inl (error_response 400 "invalid credentials"))
       | Some user =>
           let ok := bcrypt_compare lib (String_of password) (u_passwordHash user) in
           if negb ok then resolve (inl (error_response 400 "invalid credentials"))
           else
             let token := createToken lib user in
             resolve (inr (mkSession (select_user user) token))
       end)
    (fun e => resolve (inl (error_response 500 "server error"))).


(** What reaches the server: a socket input or an account request. *)
Inductive Call : Type :=
| Socket_input (i : Input)
| Register (env : UserEnv) (body : Credentials)
| Login (env : UserEnv) (body : Credentials).

(** ** A small deployment used to exercise the statements *)

Definition id_u1 : UserId := "64b0f0a1c2d3e4f5a6b7c801".

Definition id_u2 : UserId := "64b0f0a1c2d3e4f5a6b7c802".

Definition demo_u1 : Decoded := mkDecoded id_u1 "u1@example.org" "Ann".

Definition demo_u2 : Decoded := mkDecoded id_u2 "u2@example.org" "Bob".

Definition demo_verify (t : string) : option Decoded :=
  if String.eqb t "tok-u1" then Some demo_u1
  else if String.eqb t "tok-u2" then Some demo_u2
  else None.

Definition demo_users : list UserDoc :=
  [mkUser id_u1 "u1@example.org" "hash1" "Ann";
   mkUser id_u2 "u2@example.org" "hash2" "Bob"].

Definition demo_env : MongoEnv := mkEnv 1000 false false.

Definition demo_down : MongoEnv := mkEnv 1000 true false.

Definition hi_u2 : Payload := {[ "to" := id_u2; "text" := "hi" ]}.

Definition hi_u1 : Payload := {[ "to" := id_u1; "text" := "hi" ]}.

Definition bare_u2 : Payload := {[ "to" := id_u2 ]}.

Definition late_u2 : Payload := {[ "to" := id_u2; "text" := "late" ]}.

Definition forged_u2 : Payload := {[ "to" := id_u2; "text" := "hi"; "from" := id_u2 ]}.

(** An intent whose [to] is not an ObjectId: [Message.create] cannot cast it
    and rejects. *)
Definition bob_intent : Payload := {[ "to" := "bob"; "text" := "hi" ]}.

Definition cast_fails : MongoEnv := mkEnv 1000 true false.

Definition hs_u1 : Handshake := mkHandshake (Some "tok-u1") None.

Definition hs_u2 : Handshake := mkHandshake None (Some "tok-u2").

Definition hs_bad : Handshake := mkHandshake (Some "forged") None.

Definition hs_none : Handshake := mkHandshake None (Some EmptyString).

Definition demo_sign (d : Decoded) : string :=
  if String.eqb (d_id d) id_u1 then "tok-u1"
  else if String.eqb (d_id d) id_u2 then "tok-u2"
  else "tok-unknown".

Definition demo_hash (salt password : string) : string :=
  String.append salt (String.append "$" password).

Definition demo_compare (password hash : string) : bool :=
  String.eqb hash (demo_hash "salt" password).

Definition demo_lib : Libraries := mkLibraries demo_sign demo_hash demo_compare.

Definition ann_body : Credentials :=
  mkCredentials (Some "u1@example.org") (Some "secret") (Some "Ann").

Definition ann_login : Credentials :=
  mkCredentials (Some "u1@example.org") (Some "secret") None.

Definition ann_env : UserEnv := mkUserEnv id_u1 "salt" false false.

Definition mongo_down : UserEnv := mkUserEnv id_u1 "salt" true false.

Section Server.

(** [jwt.verify(token, JWT_SECRET, cb)]: the decoded payload, or [None]
    when the callback gets an error. *)
Variable jwt_verify : string -> option Decoded.

Definition verify (token : option string) : option Decoded :=
  match token with
  | Some t => jwt_verify t
  | None => None
  end.

(** *** The HTTP side *)

(** [authMiddleware]: [inr user] stands for [req.user = decoded; next()]. *)
Definition authMiddleware (req : Request) : Response + Decoded :=
  let header := authorization req in
  if negb (truthy header) then inl (error_response 401 "no token")
  else
    let token := nth_error (split_on " "%char (String_of header)) 1 in
    match verify token with
    | None => inl (error_response 401 "invalid token")
    | Some decoded => inr decoded
    end.

(** The filter of the history query. *)
Definition between (me other : UserId) (m : MessageDoc) : bool :=
  (String.eqb (m_from m) me && bool_decide (m_to m = Some other))
  || (String.eqb (m_from m) other && bool_decide (m_to m = Some me)).

(** [.sort('createdAt')]: ascending; documents with equal [createdAt] keep
    their collection order. *)
Fixpoint insert_by_createdAt (m : MessageDoc) (l : list MessageDoc) : list MessageDoc :=
  match l with
  | [] => [m]
  | h :: t =>
      if (m_createdAt m <=? m_createdAt h)%Z then m :: h :: t
      else h :: insert_by_createdAt m t
  end.

Definition sort_createdAt (l : list MessageDoc) : list MessageDoc :=
  fold_right insert_by_createdAt [] l.

(** [Message.find({$or: [...]}).sort('createdAt').limit(100).exec()] *)
Definition Message_find_between (me other : UserId) (coll : list MessageDoc)
  : list MessageDoc :=
  firstn 100 (sort_createdAt (List.filter (between me other) coll)).

(** [app.get('/api/messages', authMiddleware, ...)].  The answer is the one
    the route gives when [Message.find] resolves, which takes ids that
    Mongoose can cast ([canonical_id]); the properties of the route's answer
    are stated for such ids.  (The route has no [try]/[catch]: with another
    [with] value the query rejects and no answer is sent.) *)
Definition get_api_messages (w : World) (req : Request) : Response :=
  match authMiddleware req with
  | inl res => res
  | inr user =>
      let other := query_with req in
      if negb (truthy other) then error_response 400 "with param required"
      else messages_response (Message_find_between (d_id user) (String_of other) (messages w))
  end.

(** *** The socket.io side *)

(** [io.use(...)]: [inl msg] stands for [next(new Error(msg))]. *)
Definition io_use (hs : Handshake) : string + Decoded :=
  let token := js_or (auth_token hs) (query_token hs) in
  if negb (truthy token) then inl "no token"
  else match verify token with
       | None => inl "invalid token"
       | Some decoded => inr decoded
       end.

(** The body of [io.on('connection', ...)] up to the registration of the
    socket's listeners. *)
Definition on_connection (socket : Socket) (w : World) : World :=
  let user := s_user socket in
  let w := with_online (Map_set (d_id user) (s_id socket) (online w)) w in
  io_emit (online_users (Map_keys (online w))) w.

(** [socket.on('private_message', async (payload) => ...)] *)
Definition private_message (socket : Socket) (env : MongoEnv) (payload : Payload)
  : Async unit :=
  let user := s_user socket in
  let from := d_id user in
  let to := payload !! "to" in
  let text := js_or_str (payload !! "text") EmptyString in
  let mediaUrl := js_or_null (payload !! "mediaUrl") in
  let mediaType := js_or_null (payload !! "mediaType") in
  msg <~ Message_create env (mkFields from to text mediaUrl mediaType) ;;
  populated <~ Message_findById_populate env (m_id msg) ;;
  socket_emit socket (message populated) ;;;
  recSocketId <~ online_get (String_of to) ;;
  match recSocketId with
  | Some rec => io_to_emit rec (message populated)
  | None => resolve tt
  end.

(** [socket.on('disconnect', ...)] *)
Definition on_disconnect (socket : Socket) (w : World) : World :=
  let user := s_user socket in
  let w := with_online (Map_delete (d_id user) (online w)) w in
  io_emit (online_users (Map_keys (online w))) w.

(** *** The transition function *)

(** The process has exited: every connection is closed and the [online] map
    is gone with the process; the collections and what has been sent stay. *)
Definition exited (w : World) : World :=
  with_online [] (with_sockets [] w).

(** The [private_message] listener is an [async] function without a
    [try]/[catch] (the two account routes have one): when an awaited call
    rejects, the listener's promise rejects with nobody to handle it, and
    Node ends the process on an unhandled rejection.  What is served after
    that is served by a new process on the same collections. *)
Definition step (w : World) (i : Input) : World :=
  match i with
  | Connection hs =>
      let sid := next_sid w in
      let w := with_next_sid (S sid) w in
      match io_use hs with
      | inl err => log [Emit sid (connect_error err)] w
      | inr user =>
          let socket := mkSocket sid user in
          on_connection socket (with_sockets (sockets w ++ [socket]) w)
      end
  | PrivateMessage sid payload env =>
      match find_socket sid (sockets w) with
      | Some socket =>
          match private_message socket env payload w with
          | (Returned _, w') => w'
          | (Threw _, w') => exited w'
          end
      | None => w
      end
  | Disconnect sid =>
      match find_socket sid (sockets w) with
      | Some socket => on_disconnect socket (with_sockets (remove_socket sid (sockets w)) w)
      | None => w
      end
  end.

Definition run (w : World) (inputs : list Input) : World := fold_left step inputs w.

(** The worlds the server can be in, started on the collections [us] and
    [ms]. *)
Inductive reachable (us : list UserDoc) (ms : list MessageDoc) : World -> Prop :=
| reachable_initial : reachable us ms (initial us ms)
| reachable_step w i : reachable us ms w -> reachable us ms (step w i).

(** *** The user list and the whole server *)

(** [app.get('/api/users', authMiddleware, ...)]:
    [User.find({ _id: { $ne: req.user.id } }, 'email displayName')]. *)
Definition get_api_users (w : World) (req : Request) : Response + list UserRef :=
  match authMiddleware req with
  | inl res => inl res
  | inr user =>
      inr (map select_user
             (List.filter (fun u => negb (String.eqb (u_id u) (d_id user))) (users w)))
  end.

(** The whole server: socket inputs and account requests. *)
Definition serve (lib : Libraries) (w : World) (c : Call) : World :=
  match c with
  | Socket_input i => step w i
  | Register env body => snd (post_api_register lib env body w)
  | Login env body => snd (post_api_login lib env body w)
  end.

Definition serve_all (lib : Libraries) (w : World) (calls : list Call) : World :=
  fold_left (serve lib) calls w.

(** ** The [online] map *)

Lemma Map_get_set_eq k v m : Map_get k (Map_set k v m) = Some v.
Proof.
  induction m as [|[k' v'] r IH]; simpl.
  - now rewrite String.eqb_refl.
  - destruct (String.eqb k k') eqn:E; simpl; now rewrite E.
Qed.

Lemma Map_get_set_ne k k' v m :
  k <> k' -> Map_get k' (Map_set k v m) = Map_get k' m.
Proof.
  intros Hne. induction m as [|[k0 v0] r IH]; simpl.
  - destruct (String.eqb_spec k' k); congruence.
  - destruct (String.eqb_spec k k0) as [->|Hk]; simpl.
    + destruct (String.eqb_spec k' k0); congruence.
    + destruct (String.eqb_spec k' k0); congruence.
Qed.

Lemma Map_get_delete_eq k m : Map_get k (Map_delete k m) = None.
Proof.
  induction m as [|[k' v'] r IH]; simpl; [reflexivity|].
  destruct (String.eqb k k') eqn:E; simpl; [assumption|now rewrite E].
Qed.

Lemma Map_get_delete_ne k k' m :
  k <> k' -> Map_get k' (Map_delete k m) = Map_get k' m.
Proof.
  intros Hne. induction m as [|[k0 v0] r IH]; simpl; [reflexivity|].
  destruct (String.eqb_spec k k0) as [->|Hk]; simpl.
  - destruct (String.eqb_spec k' k0); congruence.
  - destruct (String.eqb_spec k' k0); congruence.
Qed.

Lemma Map_get_In k v m : Map_get k m = Some v -> In (k, v) m.
Proof.
  induction m as [|[k' v'] r IH]; simpl; [discriminate|].
  destruct (String.eqb_spec k k') as [->|Hk]; intros H.
  - left. congruence.
  - right. auto.
Qed.

Lemma Map_get_None_keys k m : Map_get k m = None -> ~ In k (Map_keys m).
Proof.
  induction m as [|[k' v'] r IH]; simpl; [tauto|].
  destruct (String.eqb_spec k k') as [->|Hk]; [discriminate|].
  intros H [E|HIn]; [congruence|]. now apply IH.
Qed.

Lemma In_Map_get k v m : List.NoDup (Map_keys m) -> In (k, v) m -> Map_get k m = Some v.
Proof.
  induction m as [|[k' v'] r IH]; simpl; [tauto|].
  intros Hnd [E|HIn].
  - inversion E; subst. now rewrite String.eqb_refl.
  - inversion Hnd as [|? ? Hnotin Hnd']; subst.
    destruct (String.eqb_spec k k') as [->|Hk]; [|auto].
    exfalso. apply Hnotin. change (In (fst (k', v)) (map fst r)). now apply in_map.
Qed.

Lemma In_Map_set k v k' v' m :
  In (k', v') (Map_set k v m) -> (k' = k /\ v' = v) \/ In (k', v') m.
Proof.
  induction m as [|[k0 v0] r IH]; simpl.
  - intros [E|[]]. left. inversion E; auto.
  - destruct (String.eqb_spec k k0) as [->|Hk]; simpl.
    + intros [E|HIn]; [left; inversion E; auto | right; auto].
    + intros [E|HIn]; [right; auto|].
      destruct (IH HIn) as [?|?]; auto.
Qed.

Lemma In_Map_delete k k' v' m :
  In (k', v') (Map_delete k m) -> k' <> k /\ In (k', v') m.
Proof.
  induction m as [|[k0 v0] r IH]; simpl; [tauto|].
  destruct (String.eqb_spec k k0) as [->|Hk]; simpl.
  - intros H. destruct (IH H). auto.
  - intros [E|HIn].
    + inversion E; subst. split; [congruence|auto].
    + destruct (IH HIn). auto.
Qed.

Lemma Map_keys_set k v m :
  Map_keys (Map_set k v m) =
    if existsb (String.eqb k) (Map_keys m) then Map_keys m else Map_keys m ++ [k].
Proof.
  induction m as [|[k0 v0] r IH]; simpl; [reflexivity|].
  destruct (String.eqb_spec k k0) as [->|Hk]; simpl; [reflexivity|].
  rewrite IH. now destruct (existsb (String.eqb k) (Map_keys r)).
Qed.

Lemma existsb_eqb_false k (l : list string) :
  existsb (String.eqb k) l = false -> ~ In k l.
Proof.
  induction l as [|x l IH]; simpl; [tauto|].
  destruct (String.eqb_spec k x) as [->|Hk]; simpl; [discriminate|].
  intros H [E|HIn]; [congruence|]. now apply IH.
Qed.

Lemma NoDup_snoc {A} (x : A) (l : list A) :
  List.NoDup l -> ~ In x l -> List.NoDup (l ++ [x]).
Proof.
  induction l as [|y l IH]; simpl; intros Hnd Hx.
  - constructor; [tauto|constructor].
  - inversion Hnd as [|? ? Hy Hnd']; subst. constructor.
    + rewrite in_app_iff. simpl. intros [?|[?|[]]]; [tauto|]. apply Hx. auto.
    + apply IH; tauto.
Qed.

Lemma Map_set_NoDup k v m :
  List.NoDup (Map_keys m) -> List.NoDup (Map_keys (Map_set k v m)).
Proof.
  intros Hnd. rewrite Map_keys_set.
  destruct (existsb (String.eqb k) (Map_keys m)) eqn:E; [assumption|].
  apply NoDup_snoc; [assumption|]. now apply existsb_eqb_false.
Qed.

Lemma Map_delete_NoDup k m :
  List.NoDup (Map_keys m) -> List.NoDup (Map_keys (Map_delete k m)).
Proof.
  induction m as [|[k0 v0] r IH]; simpl; [auto|].
  intros Hnd. inversion Hnd as [|? ? Hnotin Hnd']; subst.
  destruct (String.eqb k k0); simpl; [auto|].
  constructor; [|auto].
  intros HIn. apply Hnotin. unfold Map_keys in *.
  apply in_map_iff in HIn as [[k1 v1] [E HIn]]. simpl in E. subst.
  apply In_Map_delete in HIn as [_ HIn].
  change (In (fst (k0, v1)) (map fst r)). now apply in_map.
Qed.

Lemma Map_get_count k v m :
  List.NoDup (Map_keys m) -> Map_get k m = Some v ->
  count_occ string_dec (Map_keys m) k = 1.
Proof.
  intros Hnd Hget.
  assert (HIn : In k (Map_keys m)).
  { apply Map_get_In in Hget. change (In (fst (k, v)) (map fst m)). now apply in_map. }
  pose proof (proj1 (NoDup_count_occ string_dec _) Hnd k) as Hle.
  apply (count_occ_In string_dec) in HIn. lia.
Qed.

(** ** Sockets and traces *)

Lemma find_socket_Some sid ss s :
  find_socket sid ss = Some s -> In s ss /\ s_id s = sid.
Proof.
  unfold find_socket. intros H. apply find_some in H as [HIn E].
  split; [assumption|]. now apply Nat.eqb_eq.
Qed.

Lemma find_socket_None sid ss :
  find_socket sid ss = None -> ~ In sid (map s_id ss).
Proof.
  unfold find_socket. intros H HIn.
  apply in_map_iff in HIn as [s [E HIn]].
  pose proof (find_none _ _ H s HIn) as Hs. simpl in Hs.
  apply Nat.eqb_neq in Hs. congruence.
Qed.

Lemma find_socket_In ss s :
  List.NoDup (map s_id ss) -> In s ss -> find_socket (s_id s) ss = Some s.
Proof.
  unfold find_socket. induction ss as [|x ss IH]; simpl; [tauto|].
  intros Hnd [->|HIn].
  - now rewrite Nat.eqb_refl.
  - inversion Hnd as [|? ? Hx Hnd']; subst.
    destruct (Nat.eqb_spec (s_id x) (s_id s)) as [E|_]; [|auto].
    exfalso. apply Hx. rewrite E. now apply in_map.
Qed.

Lemma find_socket_is_Some sid ss :
  In sid (map s_id ss) -> exists s, find_socket sid ss = Some s.
Proof.
  intros HIn. destruct (find_socket sid ss) as [s|] eqn:E; [eauto|].
  now apply find_socket_None in E.
Qed.

Lemma In_remove_socket sid ss s :
  In s (remove_socket sid ss) <-> In s ss /\ s_id s <> sid.
Proof.
  unfold remove_socket. rewrite filter_In.
  destruct (Nat.eqb_spec (s_id s) sid); simpl; intuition congruence.
Qed.

Lemma remove_socket_ids sid ss :
  map s_id (remove_socket sid ss) = List.filter (fun i => negb (Nat.eqb i sid)) (map s_id ss).
Proof.
  unfold remove_socket. induction ss as [|x ss IH]; simpl; [reflexivity|].
  destruct (Nat.eqb (s_id x) sid); simpl; now rewrite IH.
Qed.

Lemma received_app sid es1 es2 :
  received sid (es1 ++ es2) = received sid es1 ++ received sid es2.
Proof.
  induction es1 as [|[doc|to p] es1 IH]; simpl; [reflexivity|assumption|].
  destruct (Nat.eqb to sid); simpl; now rewrite IH.
Qed.

Lemma received_broadcast_absent sid p ss :
  ~ In sid (map s_id ss) ->
  received sid (map (fun s => Emit (s_id s) p) ss) = [].
Proof.
  induction ss as [|x ss IH]; simpl; [reflexivity|].
  intros H. destruct (Nat.eqb_spec (s_id x) sid); [tauto|]. apply IH. tauto.
Qed.

Lemma received_broadcast sid p ss :
  List.NoDup (map s_id ss) -> In sid (map s_id ss) ->
  received sid (map (fun s => Emit (s_id s) p) ss) = [p].
Proof.
  induction ss as [|x ss IH]; simpl; [tauto|].
  intros Hnd HIn. inversion Hnd as [|? ? Hx Hnd']; subst.
  destruct (Nat.eqb_spec (s_id x) sid) as [E|Hne].
  - f_equal. apply received_broadcast_absent. congruence.
  - apply IH; [assumption|]. destruct HIn; [contradiction|assumption].
Qed.

Lemma received_fresh sid es :
  Forall (targets_below sid) es ->
  received sid es = [].
Proof.
  induction 1 as [|[doc|to p] es Hx _ IH]; simpl; [reflexivity|assumption|].
  simpl in Hx. destruct (Nat.eqb_spec to sid); [lia|assumption].
Qed.

Lemma since_app w w' es : trace w' = trace w ++ es -> since w w' = es.
Proof. unfold since. intros ->. apply drop_app_length. Qed.

Lemma since_refl w : since w w = [].
Proof. unfold since. apply skipn_all. Qed.

(** ** Running the [private_message] handler *)

Lemma private_message_create_rejected socket env payload w :
  create_rejects env = true ->
  private_message socket env payload w = (Threw "Message.create rejected", w).
Proof.
  intros H. unfold private_message, await, Message_create. now rewrite H.
Qed.

Lemma private_message_find_rejected socket env payload w :
  create_rejects env = false -> find_rejects env = true ->
  private_message socket env payload w =
    (Threw "Message.findById rejected",
     insert_message (created_doc socket env payload w) w).
Proof.
  intros H1 H2.
  unfold private_message, await, Message_create, Message_findById_populate.
  now rewrite H1, H2.
Qed.

Lemma find_message_fresh (l : list MessageDoc) doc :
  Forall (fun m => m_id m < m_id doc) l ->
  List.find (fun m => Nat.eqb (m_id m) (m_id doc)) (l ++ [doc]) = Some doc.
Proof.
  induction 1 as [|x l Hx _ IH]; simpl.
  - now rewrite Nat.eqb_refl.
  - destruct (Nat.eqb_spec (m_id x) (m_id doc)); [lia|assumption].
Qed.

(** With both awaited calls resolving, in a well-formed world, the handler
    stores one document and emits its populated form to the sender and to
    the socket registered for [String(to)], if any. *)
Lemma private_message_resolved socket env payload w :
  wf w -> In socket (sockets w) ->
  create_rejects env = false -> find_rejects env = false ->
  let doc := created_doc socket env payload w in
  let ev := message (Some (populate_from (users w) doc)) in
  private_message socket env payload w =
    (Returned tt,
     log (Emit (s_id socket) ev ::
          match Map_get (String_of (payload !! "to")) (online w) with
          | Some rec => [Emit rec ev]
          | None => []
          end)
       (insert_message doc w)).
Proof.
  intros Hwf HIn H1 H2 doc ev. unfold created_doc in doc.
  unfold private_message, await, Message_create, Message_findById_populate.
  rewrite H1. cbn [f_from f_to f_text f_mediaUrl f_mediaType]. fold doc.
  cbn [m_id messages users insert_message]. rewrite H2.
  rewrite find_message_fresh by apply (wf_oids_fresh _ Hwf).
  cbn [option_map]. fold ev.
  unfold socket_emit, io_to_emit, online_get, deliver, resolve.
  cbn [sockets insert_message].
  rewrite (find_socket_In _ _ (wf_sids_nodup _ Hwf) HIn).
  cbn [sockets online log insert_message].
  destruct (Map_get _ (online w)) as [rec|] eqn:Hrec.
  - apply Map_get_In in Hrec. apply (wf_online_owner _ Hwf) in Hrec as [s [Hs [E _]]].
    subst rec. cbn [sockets log insert_message]. rewrite (find_socket_In _ _ (wf_sids_nodup _ Hwf) Hs).
    unfold log, insert_message. cbn. rewrite <- !app_assoc. reflexivity.
  - unfold log, insert_message. cbn. rewrite <- !app_assoc. reflexivity.
Qed.

(** The handler's promise resolves exactly when both awaited calls do. *)
Lemma private_message_completion socket env payload w :
  fst (private_message socket env payload w) =
    if create_rejects env then Threw "Message.create rejected"
    else if find_rejects env then Threw "Message.findById rejected"
    else Returned tt.
Proof.
  unfold private_message, await, Message_create, Message_findById_populate,
    socket_emit, io_to_emit, online_get, deliver, resolve.
  destruct (create_rejects env); [reflexivity|].
  cbn [messages users insert_message].
  destruct (find_rejects env); [reflexivity|].
  cbn [sockets insert_message].
  destruct (find_socket (s_id socket) (sockets w)); cbn [online log insert_message];
    destruct (Map_get _ (online w)) as [rec|]; cbn [sockets log insert_message];
    try destruct (find_socket rec (sockets w)); reflexivity.
Qed.

(** A [private_message] input: the world the handler leaves, or, when its
    promise rejects, that world with the process gone. *)
Lemma step_message w sid payload env socket :
  find_socket sid (sockets w) = Some socket ->
  step w (PrivateMessage sid payload env) =
    if create_rejects env || find_rejects env
    then exited (snd (private_message socket env payload w))
    else snd (private_message socket env payload w).
Proof.
  intros Hfind. simpl. rewrite Hfind.
  pose proof (private_message_completion socket env payload w) as Hc.
  destruct (private_message socket env payload w) as [c w']. simpl in *.
  destruct (create_rejects env); [now subst c|].
  destruct (find_rejects env); now subst c.
Qed.

Lemma step_message_store w sid payload env socket :
  find_socket sid (sockets w) = Some socket ->
  messages (step w (PrivateMessage sid payload env)) =
    messages (snd (private_message socket env payload w)) /\
  trace (step w (PrivateMessage sid payload env)) =
    trace (snd (private_message socket env payload w)) /\
  next_oid (step w (PrivateMessage sid payload env)) =
    next_oid (snd (private_message socket env payload w)).
Proof.
  intros Hfind. rewrite (step_message _ _ _ _ _ Hfind).
  destruct (create_rejects env || find_rejects env); repeat split; reflexivity.
Qed.

(** ** The invariant holds in every reachable world *)

Lemma targets_below_mono n n' es :
  n <= n' -> Forall (targets_below n) es -> Forall (targets_below n') es.
Proof.
  intros Hle H. eapply List.Forall_impl; [|exact H].
  intros [doc|sid p]; simpl; [tauto|lia].
Qed.

Lemma broadcast_targets n p ss :
  Forall (fun s => s_id s < n) ss ->
  Forall (targets_below n) (map (fun s => Emit (s_id s) p) ss).
Proof. induction 1; simpl; constructor; auto. Qed.

Lemma wf_initial us ms : wf (initial us ms).
Proof.
  split; simpl; try constructor.
  - intros k sid [].
  - unfold fresh_oid. rewrite List.Forall_forall. intros m Hm.
    pose proof (proj1 (list_max_le (map (fun m => S (m_id m)) ms) _) (le_n _)) as H.
    rewrite List.Forall_forall in H.
    specialize (H (S (m_id m)) (in_map (fun m => S (m_id m)) _ _ Hm)). lia.
Qed.

Lemma wf_log es w :
  wf w -> Forall (targets_below (next_sid w)) es -> wf (log es w).
Proof.
  intros [H1 H2 H3 H4 H5 H6] Hes. split; simpl; try assumption.
  apply Forall_app. split; assumption.
Qed.

Lemma wf_insert_message doc w :
  wf w -> m_id doc = next_oid w -> wf (insert_message doc w).
Proof.
  intros [H1 H2 H3 H4 H5 H6] Hid. split; simpl; try assumption.
  - apply Forall_app. split.
    + eapply List.Forall_impl; [|exact H5]. simpl. intros; lia.
    + constructor; [lia|constructor].
  - apply Forall_app. split; [assumption|]. constructor; [exact I|constructor].
Qed.

Lemma wf_socket_fresh w s : wf w -> In s (sockets w) -> s_id s < next_sid w.
Proof.
  intros Hwf HIn. pose proof (wf_sids_fresh _ Hwf) as H.
  rewrite List.Forall_forall in H. now apply H.
Qed.

Lemma wf_next_sid_unused w : wf w -> ~ In (next_sid w) (map s_id (sockets w)).
Proof.
  intros Hwf HIn. apply in_map_iff in HIn as [s [E HIn]].
  apply (wf_socket_fresh _ _ Hwf) in HIn. lia.
Qed.

Lemma wf_private_message socket env payload w :
  wf w -> In socket (sockets w) ->
  wf (snd (private_message socket env payload w)).
Proof.
  intros Hwf HIn.
  destruct (create_rejects env) eqn:Hc.
  { now rewrite private_message_create_rejected. }
  destruct (find_rejects env) eqn:Hf.
  { rewrite private_message_find_rejected by assumption. simpl.
    now apply wf_insert_message. }
  rewrite private_message_resolved by assumption. simpl.
  apply wf_log; [now apply wf_insert_message|]. simpl.
  constructor; [simpl; now apply wf_socket_fresh|].
  destruct (Map_get _ (online w)) as [rec|] eqn:Hrec; [|constructor].
  constructor; [|constructor]. simpl.
  apply Map_get_In in Hrec. apply (wf_online_owner _ Hwf) in Hrec as [s [Hs [<- _]]].
  now apply wf_socket_fresh.
Qed.

Lemma wf_exited w : wf w -> wf (exited w).
Proof.
  intros [H1 H2 H3 H4 H5 H6]. split; simpl; try assumption; try constructor.
  intros k sid [].
Qed.

Lemma wf_connection_rejected w err :
  wf w ->
  wf (log [Emit (next_sid w) (connect_error err)] (with_next_sid (S (next_sid w)) w)).
Proof.
  intros Hwf. apply wf_log.
  - destruct Hwf as [H1 H2 H3 H4 H5 H6]. split; simpl; try assumption.
    + eapply List.Forall_impl; [|exact H1]. simpl. intros; lia.
    + eapply targets_below_mono; [|exact H6]. lia.
  - simpl. constructor; [simpl; lia|constructor].
Qed.

Lemma wf_connection_accepted w user :
  wf w ->
  wf (on_connection (mkSocket (next_sid w) user)
        (with_sockets (sockets w ++ [mkSocket (next_sid w) user])
           (with_next_sid (S (next_sid w)) w))).
Proof.
  intros Hwf. pose proof (wf_next_sid_unused _ Hwf) as Hfresh.
  destruct Hwf as [H1 H2 H3 H4 H5 H6].
  assert (Hss : Forall (fun s => s_id s < S (next_sid w))
                  (sockets w ++ [mkSocket (next_sid w) user])).
  { apply Forall_app. split.
    - eapply List.Forall_impl; [|exact H1]. simpl. intros; lia.
    - constructor; [simpl; lia|constructor]. }
  unfold on_connection, io_emit. split; simpl.
  - exact Hss.
  - rewrite map_app. simpl. now apply NoDup_snoc.
  - intros k sid HIn. apply In_Map_set in HIn as [[-> ->]|HIn].
    + exists (mkSocket (next_sid w) user). rewrite in_app_iff. simpl. auto.
    + destruct (H3 _ _ HIn) as [s [Hs [E1 E2]]]. exists s.
      rewrite in_app_iff. auto.
  - now apply Map_set_NoDup.
  - assumption.
  - apply Forall_app. split.
    + eapply targets_below_mono; [|exact H6]. lia.
    + now apply broadcast_targets.
Qed.

Lemma wf_disconnect w socket :
  wf w -> In socket (sockets w) ->
  wf (on_disconnect socket (with_sockets (remove_socket (s_id socket) (sockets w)) w)).
Proof.
  intros Hwf Hsock. pose proof Hwf as [H1 H2 H3 H4 H5 H6].
  assert (Hss : Forall (fun s => s_id s < next_sid w)
                  (remove_socket (s_id socket) (sockets w))).
  { rewrite List.Forall_forall. intros s Hs. apply In_remove_socket in Hs as [Hs _].
    now apply wf_socket_fresh. }
  unfold on_disconnect, io_emit. split; simpl.
  - exact Hss.
  - rewrite remove_socket_ids. now apply List.NoDup_filter.
  - intros k sid HIn. apply In_Map_delete in HIn as [Hk HIn].
    destruct (H3 _ _ HIn) as [s [Hs [E1 E2]]]. exists s. split; [|auto].
    apply In_remove_socket. split; [assumption|].
    intros E. apply Hk. rewrite <- E2. f_equal.
    assert (Hf : find_socket (s_id s) (sockets w) = Some s) by now apply find_socket_In.
    rewrite E in Hf. rewrite (find_socket_In _ _ H2 Hsock) in Hf. congruence.
  - now apply Map_delete_NoDup.
  - assumption.
  - apply Forall_app. split; [assumption|]. now apply broadcast_targets.
Qed.

Lemma wf_step w i : wf w -> wf (step w i).
Proof.
  intros Hwf. destruct i as [hs|sid payload env|sid]; [simpl| |simpl].
  - destruct (io_use hs) as [err|user].
    + now apply wf_connection_rejected.
    + now apply wf_connection_accepted.
  - destruct (find_socket sid (sockets w)) as [socket|] eqn:E;
      [|simpl; now rewrite E].
    rewrite (step_message _ _ _ _ _ E).
    apply find_socket_Some in E as [HIn _].
    pose proof (wf_private_message socket env payload w Hwf HIn) as Hwf'.
    destruct (create_rejects env || find_rejects env); [now apply wf_exited|assumption].
  - destruct (find_socket sid (sockets w)) as [socket|] eqn:E; [|assumption].
    apply find_socket_Some in E as [HIn <-]. now apply wf_disconnect.
Qed.

Lemma reachable_wf us ms w : reachable us ms w -> wf w.
Proof. induction 1; [apply wf_initial|now apply wf_step]. Qed.

Lemma reachable_run us ms w inputs :
  reachable us ms w -> reachable us ms (run w inputs).
Proof.
  revert w. induction inputs as [|i inputs IH]; intros w H; simpl; [assumption|].
  apply IH. now constructor.
Qed.

Lemma wf_run w inputs : wf w -> wf (run w inputs).
Proof.
  revert w. induction inputs as [|i inputs IH]; intros w H; simpl; [assumption|].
  apply IH. now apply wf_step.
Qed.

Lemma run_app w xs ys : run (run w xs) ys = run w (xs ++ ys).
Proof. unfold run. now rewrite fold_left_app. Qed.

(** ** The history query *)

Lemma insert_by_createdAt_perm m l :
  Permutation (m :: l) (insert_by_createdAt m l).
Proof.
  induction l as [|h t IH]; simpl; [reflexivity|].
  destruct (m_createdAt m <=? m_createdAt h)%Z; [reflexivity|].
  rewrite perm_swap. now constructor.
Qed.

Lemma sort_createdAt_perm l : Permutation l (sort_createdAt l).
Proof.
  induction l as [|h t IH]; simpl; [reflexivity|].
  rewrite <- insert_by_createdAt_perm. now constructor.
Qed.

Lemma insert_by_createdAt_sorted m l :
  StronglySorted older_or_same l ->
  StronglySorted older_or_same (insert_by_createdAt m l).
Proof.
  induction 1 as [|h t Hs IH Hh]; simpl.
  - constructor; constructor.
  - destruct (Z.leb_spec (m_createdAt m) (m_createdAt h)) as [Hle|Hgt].
    + constructor; [now constructor|]. constructor.
      * exact Hle.
      * eapply List.Forall_impl; [|exact Hh]. unfold older_or_same. intros; lia.
    + constructor; [assumption|].
      eapply Permutation_Forall; [apply insert_by_createdAt_perm|].
      constructor; [unfold older_or_same; lia|assumption].
Qed.

Lemma sort_createdAt_sorted l : StronglySorted older_or_same (sort_createdAt l).
Proof.
  induction l as [|h t IH]; simpl; [constructor|].
  now apply insert_by_createdAt_sorted.
Qed.

Lemma StronglySorted_firstn {A} (R : A -> A -> Prop) n l :
  StronglySorted R l -> StronglySorted R (firstn n l).
Proof.
  intros H. revert n. induction H as [|h t Hs IH Hh]; intros [|n]; simpl;
    try constructor.
  - apply IH.
  - rewrite List.Forall_forall in *. intros x Hx. apply Hh.
    rewrite <- (firstn_skipn n t). apply in_app_iff. now left.
Qed.

Lemma StronglySorted_split {A} (R : A -> A -> Prop) l1 l2 :
  StronglySorted R (l1 ++ l2) ->
  forall x y, In x l1 -> In y l2 -> R x y.
Proof.
  induction l1 as [|h t IH]; simpl; [tauto|].
  intros H x y [->|Hx] Hy; inversion H as [|? ? Hs Hh]; subst.
  - rewrite List.Forall_forall in Hh. apply Hh. apply in_app_iff. now right.
  - now apply IH.
Qed.

Lemma In_firstn {A} n (l : list A) x : In x (firstn n l) -> In x l.
Proof.
  intros H. rewrite <- (firstn_skipn n l). apply in_app_iff. now left.
Qed.

Lemma between_spec me other m :
  between me other m = true <->
  (m_from m = me /\ m_to m = Some other) \/ (m_from m = other /\ m_to m = Some me).
Proof.
  unfold between.
  rewrite orb_true_iff, !andb_true_iff, !String.eqb_eq, !bool_decide_eq_true.
  reflexivity.
Qed.

Lemma find_between_length me other coll :
  length (Message_find_between me other coll) <= 100.
Proof. unfold Message_find_between. apply firstn_le_length. Qed.

Lemma find_between_sorted me other coll :
  StronglySorted older_or_same (Message_find_between me other coll).
Proof.
  unfold Message_find_between. apply StronglySorted_firstn, sort_createdAt_sorted.
Qed.

Lemma find_between_sound me other coll m :
  In m (Message_find_between me other coll) ->
  In m coll /\ between me other m = true.
Proof.
  unfold Message_find_between. intros H. apply In_firstn in H.
  apply (Permutation_in _ (Permutation_sym (sort_createdAt_perm _))) in H.
  now apply filter_In in H.
Qed.

Lemma find_between_complete me other coll m :
  length (List.filter (between me other) coll) <= 100 ->
  In m coll -> between me other m = true ->
  In m (Message_find_between me other coll).
Proof.
  unfold Message_find_between. intros Hlen HIn Hb.
  rewrite firstn_all2.
  - apply (Permutation_in _ (sort_createdAt_perm _)). now apply filter_In.
  - now rewrite <- (Permutation_length (sort_createdAt_perm _)).
Qed.

(** A matching document is returned, or the cap is reached by documents
    at least as old. *)
Lemma find_between_cases me other coll m :
  In m coll -> between me other m = true ->
  In m (Message_find_between me other coll) \/
  (length (Message_find_between me other coll) = 100 /\
   forall m', In m' (Message_find_between me other coll) -> older_or_same m' m).
Proof.
  unfold Message_find_between.
  set (S := sort_createdAt (List.filter (between me other) coll)).
  intros HIn Hb.
  assert (HS : In m S).
  { apply (Permutation_in _ (sort_createdAt_perm _)). now apply filter_In. }
  rewrite <- (firstn_skipn 100 S) in HS. apply in_app_iff in HS as [HS|HS]; [now left|].
  right. split.
  - destruct (le_lt_dec (length S) 100) as [Hle|Hgt].
    + rewrite skipn_all2 in HS by assumption. destruct HS.
    + apply firstn_length_le. lia.
  - intros m' Hm'.
    apply (StronglySorted_split older_or_same (firstn 100 S) (skipn 100 S)); try assumption.
    rewrite firstn_skipn. apply sort_createdAt_sorted.
Qed.

Lemma canonical_id_nonempty (s : string) : canonical_id s = true -> s <> EmptyString.
Proof. intros H ->. discriminate. Qed.

Lemma get_api_messages_ok w req caller other :
  authMiddleware req = inr caller ->
  query_with req = Some other -> other <> EmptyString ->
  get_api_messages w req =
    messages_response (Message_find_between (d_id caller) other (messages w)).
Proof.
  intros Ha Hq Hne. unfold get_api_messages. rewrite Ha, Hq. simpl.
  destruct (String.eqb_spec other EmptyString); [contradiction|reflexivity].
Qed.

Lemma authMiddleware_rejects req res :
  authMiddleware req = inl res ->
  res = error_response 401 "no token" \/ res = error_response 401 "invalid token".
Proof.
  unfold authMiddleware.
  destruct (truthy (authorization req)); simpl.
  - destruct (verify _); [discriminate|]. intros H; inversion H; auto.
  - intros H; inversion H; auto.
Qed.

(** ** What the handlers leave alone *)

Lemma private_message_frame socket env payload w :
  let w' := snd (private_message socket env payload w) in
  sockets w' = sockets w /\ online w' = online w /\
  next_sid w' = next_sid w /\ users w' = users w.
Proof.
  unfold private_message, await, Message_create, Message_findById_populate,
    socket_emit, io_to_emit, online_get, deliver, resolve.
  destruct (create_rejects env); [simpl; auto|].
  cbn [messages users insert_message].
  destruct (find_rejects env); [simpl; auto|].
  cbn [sockets insert_message].
  destruct (find_socket (s_id socket) (sockets w)); cbn [online log insert_message];
    destruct (Map_get _ (online w)) as [rec|]; cbn [sockets log insert_message];
    try destruct (find_socket rec (sockets w)); simpl; auto.
Qed.

(** Whatever the handler does starts with the stored document. *)
Lemma private_message_effects socket env payload w :
  create_rejects env = false ->
  let w' := snd (private_message socket env payload w) in
  let doc := created_doc socket env payload w in
  messages w' = messages w ++ [doc] /\
  exists emits, trace w' = trace w ++ Stored doc :: emits.
Proof.
  intros Hc w' doc. subst w'. unfold created_doc in doc.
  unfold private_message, await, Message_create, Message_findById_populate,
    socket_emit, io_to_emit, online_get, deliver, resolve.
  rewrite Hc. cbn [f_from f_to f_text f_mediaUrl f_mediaType]. fold doc.
  cbn [messages users insert_message].
  destruct (find_rejects env).
  { simpl. split; [reflexivity|]. now exists []. }
  cbn [sockets insert_message].
  destruct (find_socket (s_id socket) (sockets w)); cbn [online log insert_message];
    destruct (Map_get _ (online w)) as [rec|]; cbn [sockets log insert_message];
    try destruct (find_socket rec (sockets w)); simpl;
    (split; [reflexivity|]); rewrite <- ?app_assoc; simpl; eexists; reflexivity.
Qed.

(** ** Closed connections stay silent *)

Lemma not_connected_step sid w i :
  wf w -> not_connected sid w ->
  not_connected sid (step w i) /\
  received sid (trace (step w i)) = received sid (trace w).
Proof.
  intros Hwf [Hlt Hout]. unfold not_connected.
  destruct i as [hs|s payload env|s]; [simpl| |simpl].
  - destruct (io_use hs) as [err|user].
    + simpl. split; [split; [lia|assumption]|].
      rewrite received_app. simpl.
      destruct (Nat.eqb_spec (next_sid w) sid); [lia|]. apply app_nil_r.
    + unfold on_connection, io_emit. simpl.
      assert (Hout' : ~ In sid (map s_id (sockets w ++ [mkSocket (next_sid w) user]))).
      { rewrite map_app, in_app_iff. simpl. intros [?|[?|[]]]; [tauto|lia]. }
      split; [split; [lia|assumption]|].
      rewrite received_app, received_broadcast_absent by assumption. apply app_nil_r.
  - destruct (find_socket s (sockets w)) as [socket|] eqn:E;
      [|simpl; rewrite E; tauto].
    rewrite (step_message _ _ _ _ _ E).
    apply find_socket_Some in E as [HIn <-].
    destruct (private_message_frame socket env payload w) as (Hs & _ & Hn & _).
    assert (Hsock : s_id socket <> sid).
    { intros E. apply Hout. rewrite <- E. now apply in_map. }
    destruct (create_rejects env) eqn:Hc.
    { rewrite private_message_create_rejected by assumption. simpl. tauto. }
    destruct (find_rejects env) eqn:Hf.
    { rewrite private_message_find_rejected by assumption. simpl.
      split; [tauto|]. rewrite received_app. simpl. apply app_nil_r. }
    simpl. split; [split; [rewrite Hn|rewrite Hs]; assumption|].
    rewrite private_message_resolved by assumption. simpl.
    rewrite !received_app. simpl.
    destruct (Nat.eqb_spec (s_id socket) sid); [contradiction|].
    destruct (Map_get _ (online w)) as [rec|] eqn:Hrec; simpl;
      [|now rewrite !app_nil_r].
    apply Map_get_In in Hrec. apply (wf_online_owner _ Hwf) in Hrec as [r [Hr [<- _]]].
    destruct (Nat.eqb_spec (s_id r) sid) as [E|_]; [|now rewrite !app_nil_r].
    exfalso. apply Hout. rewrite <- E. now apply in_map.
  - destruct (find_socket s (sockets w)) as [socket|] eqn:E; [|tauto].
    unfold on_disconnect, io_emit. simpl.
    assert (Hout' : ~ In sid (map s_id (remove_socket s (sockets w)))).
    { intros H. apply in_map_iff in H as [x [Ex Hx]].
      apply In_remove_socket in Hx as [Hx _]. apply Hout. rewrite <- Ex. now apply in_map. }
    split; [split; assumption|].
    rewrite received_app, received_broadcast_absent by assumption. apply app_nil_r.
Qed.

Lemma not_connected_run sid inputs w :
  wf w -> not_connected sid w ->
  not_connected sid (run w inputs) /\
  received sid (trace (run w inputs)) = received sid (trace w).
Proof.
  revert w. induction inputs as [|i inputs IH]; intros w Hwf Hn; simpl; [auto|].
  destruct (not_connected_step sid w i Hwf Hn) as [Hn' Hr].
  destruct (IH (step w i) (wf_step _ _ Hwf) Hn') as [Hn'' Hr'].
  split; [assumption|congruence].
Qed.

(** ** The identity bound to a socket *)

Lemma bound_to_step sid user w i : bound_to sid user w -> bound_to sid user (step w i).
Proof.
  intros [Hlt Hb]. unfold bound_to. destruct i as [hs|s payload env|s]; [simpl| |simpl].
  - destruct (io_use hs) as [err|user'].
    + simpl. split; [lia|assumption].
    + unfold on_connection, io_emit. simpl. split; [lia|].
      intros x Hx Ex. apply in_app_iff in Hx as [Hx|[<-|[]]]; [auto|]. simpl in Ex. lia.
  - destruct (find_socket s (sockets w)) as [socket|] eqn:E;
      [|simpl; rewrite E; split; assumption].
    rewrite (step_message _ _ _ _ _ E).
    destruct (private_message_frame socket env payload w) as (Hs & _ & Hn & _).
    destruct (create_rejects env || find_rejects env); simpl.
    + split; [rewrite Hn; assumption|]. intros x [].
    + split; [rewrite Hn|rewrite Hs]; assumption.
  - destruct (find_socket s (sockets w)) as [socket|] eqn:E; [|split; assumption].
    unfold on_disconnect, io_emit. simpl. split; [assumption|].
    intros x Hx Ex. apply In_remove_socket in Hx as [Hx _]. auto.
Qed.

Lemma bound_to_run sid user inputs w :
  bound_to sid user w -> bound_to sid user (run w inputs).
Proof.
  revert w. induction inputs as [|i inputs IH]; intros w H; simpl; [assumption|].
  apply IH. now apply bound_to_step.
Qed.

(** ** Routing a send-intent *)

Lemma find_user_In (A : UserId) (us : list UserDoc) :
  In A (map u_id us) ->
  exists u, List.find (fun u => String.eqb (u_id u) A) us = Some u /\ In u us /\ u_id u = A.
Proof.
  induction us as [|x us IH]; simpl; [tauto|].
  destruct (String.eqb_spec (u_id x) A) as [E|Hne].
  - intros _. exists x. auto.
  - intros [E|HIn]; [contradiction|].
    destruct (IH HIn) as [u [Hf [Hu E]]]. exists u. auto.
Qed.

Lemma js_or_str_text (v : option string) :
  js_or_str v EmptyString = match v with Some t => t | None => EmptyString end.
Proof.
  destruct v as [t|]; [|reflexivity]. unfold js_or_str, js_or. simpl.
  destruct (String.eqb_spec t EmptyString); simpl; congruence.
Qed.

Lemma step_private_message w socket payload env :
  wf w -> In socket (sockets w) ->
  create_rejects env = false -> find_rejects env = false ->
  step w (PrivateMessage (s_id socket) payload env) =
    snd (private_message socket env payload w).
Proof.
  intros Hwf HIn Hc Hf.
  rewrite (step_message _ _ _ _ _ (find_socket_In _ _ (wf_sids_nodup _ Hwf) HIn)).
  now rewrite Hc, Hf.
Qed.

(** C1 (as amended): a send-intent from A to B, A and B distinct, sent on a
    connection of A (an identity with an account document) and accepted (both
    awaited store calls resolve): exactly one record [from = A, to = B, text]
    is added to the Message collection.  If B is online on the connection
    that the presence map holds for B, the sender's connection and that
    connection each receive exactly one [message] event carrying that record
    (its [from] populated with A's account), and no connection of a third
    identity, nor any other connection of A, receives anything.  If B is
    offline (no connection of B is open), the sender still receives its
    echo, no other connection receives anything, and the history query of A
    with B returns the record provided fewer than 100 messages of the pair
    were stored before it (the query returns the 100 oldest). *)
Theorem C1_send_delivers_and_persists us ms w socket payload env A B :
  reachable us ms w ->
  In socket (sockets w) -> d_id (s_user socket) = A ->
  In A (map u_id (users w)) ->
  payload !! "to" = Some B -> A <> B ->
  create_rejects env = false -> find_rejects env = false ->
  let sA := s_id socket in
  let w' := step w (PrivateMessage sA payload env) in
  exists doc u,
    messages w' = messages w ++ [doc] /\
    m_from doc = A /\ m_to doc = Some B /\
    m_text doc = match payload !! "text" with Some t => t | None => EmptyString end /\
    In u (users w) /\ u_id u = A /\
    let ev :=
      message (Some (mkPopulated (m_id doc)
                       (Some (mkUserRef A (u_email u) (u_displayName u)))
                       (Some B) (m_text doc) (m_mediaUrl doc) (m_mediaType doc)
                       (m_createdAt doc))) in
    (forall sockB,
       In sockB (sockets w) -> d_id (s_user sockB) = B ->
       Map_get B (online w) = Some (s_id sockB) ->
       s_id sockB <> sA /\
       new_packets w w' sA = [ev] /\
       new_packets w w' (s_id sockB) = [ev] /\
       forall s, In s (sockets w) -> s_id s <> sA -> d_id (s_user s) <> B ->
                 new_packets w w' (s_id s) = []) /\
    (has_open_session w B = false ->
       new_packets w w' sA = [ev] /\
       (forall sid, sid <> sA -> new_packets w w' sid = []) /\
       forall req caller,
         authMiddleware req = inr caller -> d_id caller = A ->
         query_with req = Some B ->
         canonical_id A = true -> canonical_id B = true ->
         length (List.filter (between A B) (messages w)) < 100 ->
         exists l, get_api_messages w' req = messages_response l /\ In doc l).
Proof.
  intros Hreach Hsock HA Hacc Hto Hne Hc Hf sA w'.
  pose proof (reachable_wf _ _ _ Hreach) as Hwf.
  assert (Hsame : forall s s', In s (sockets w) -> In s' (sockets w) ->
                    s_id s = s_id s' -> s = s').
  { intros s s' Hs Hs' E.
    assert (Hf1 : find_socket (s_id s) (sockets w) = Some s)
      by now apply find_socket_In; [apply Hwf|].
    rewrite E, (find_socket_In _ _ (wf_sids_nodup _ Hwf) Hs') in Hf1. congruence. }
  subst sA w'. rewrite step_private_message by assumption.
  rewrite private_message_resolved by assumption.
  set (doc := created_doc socket env payload w).
  destruct (find_user_In A (users w) Hacc) as [u [Hfind [Hu Eu]]].
  assert (Hpop : populate_from (users w) doc =
                 mkPopulated (m_id doc) (Some (mkUserRef A (u_email u) (u_displayName u)))
                   (Some B) (m_text doc) (m_mediaUrl doc) (m_mediaType doc)
                   (m_createdAt doc)).
  { unfold populate_from. subst doc. cbn [created_doc m_from m_to m_id m_text
      m_mediaUrl m_mediaType m_createdAt]. rewrite HA, Hfind, Hto. simpl.
    unfold select_user. now rewrite Eu. }
  rewrite Hpop. cbn [String_of]. rewrite Hto. cbn [String_of snd].
  exists doc, u.
  split; [reflexivity|]. split; [exact HA|]. split; [exact Hto|].
  split; [apply js_or_str_text|]. split; [exact Hu|]. split; [exact Eu|].
  cbv zeta. split.
  - intros sockB HsockB UB HsB. rewrite HsB.
    assert (HsBA : s_id sockB <> s_id socket).
    { intros E. apply Hne. rewrite <- HA, <- UB. now rewrite (Hsame _ _ HsockB Hsock E). }
    split; [exact HsBA|].
    unfold new_packets.
    erewrite since_app by (simpl; rewrite <- app_assoc; reflexivity).
    simpl. rewrite !Nat.eqb_refl.
    destruct (Nat.eqb_spec (s_id sockB) (s_id socket)); [contradiction|].
    destruct (Nat.eqb_spec (s_id socket) (s_id sockB)); [congruence|].
    split; [reflexivity|]. split; [reflexivity|].
    intros x Hx H1 H2.
    destruct (Nat.eqb_spec (s_id socket) (s_id x)); [congruence|].
    destruct (Nat.eqb_spec (s_id sockB) (s_id x)) as [E|_]; [|reflexivity].
    exfalso. apply H2. rewrite <- (Hsame _ _ HsockB Hx E). exact UB.
  - intros Hoff.
    assert (Hnone : Map_get B (online w) = None).
    { destruct (Map_get B (online w)) as [sB|] eqn:HsB; [|reflexivity].
      apply Map_get_In in HsB.
      destruct (wf_online_owner _ Hwf _ _ HsB) as [x [Hx [_ Ux]]].
      assert (Hopen : has_open_session w B = true).
      { apply existsb_exists. exists x. split; [exact Hx|]. now apply String.eqb_eq. }
      congruence. }
    rewrite Hnone. unfold new_packets.
    erewrite since_app by (simpl; rewrite <- app_assoc; reflexivity).
    simpl. rewrite Nat.eqb_refl. split; [reflexivity|]. split.
    + intros sid Hsid.
      destruct (Nat.eqb_spec (s_id socket) sid); [congruence|reflexivity].
    + intros req caller Hauth Hcaller Hq _ HB Hlen.
      rewrite (get_api_messages_ok _ _ _ _ Hauth Hq (canonical_id_nonempty _ HB)), Hcaller.
      eexists. split; [reflexivity|]. simpl.
      assert (Hb : between A B doc = true).
      { apply between_spec. left. split; [exact HA|exact Hto]. }
      apply find_between_complete.
      * rewrite List.filter_app, List.length_app. simpl. rewrite Hb. simpl. lia.
      * apply in_app_iff. right. now left.
      * exact Hb.
Qed.

(** C3 (as amended): a send-intent that carries neither [text] nor
    [mediaUrl] is not rejected.  The handler validates nothing: when the
    store accepts the record it returns normally, one record with
    [text = ''] and [mediaUrl = null] is added to the Message collection, the
    [message] event for it is emitted to the sender and then to the
    connection registered for the recipient, if there is one, and the
    sender's session stays connected and registered as before. *)
Theorem C3_empty_intent_is_processed us ms w socket payload env :
  reachable us ms w ->
  In socket (sockets w) ->
  payload !! "text" = None -> payload !! "mediaUrl" = None ->
  create_rejects env = false -> find_rejects env = false ->
  let w' := step w (PrivateMessage (s_id socket) payload env) in
  fst (private_message socket env payload w) = Returned tt /\
  (exists doc,
     messages w' = messages w ++ [doc] /\
     m_from doc = d_id (s_user socket) /\ m_to doc = payload !! "to" /\
     m_text doc = EmptyString /\ m_mediaUrl doc = None /\
     let ev := message (Some (populate_from (users w) doc)) in
     since w w' =
       Stored doc :: Emit (s_id socket) ev ::
       match Map_get (String_of (payload !! "to")) (online w) with
       | Some rec => [Emit rec ev]
       | None => []
       end) /\
  sockets w' = sockets w /\ online w' = online w.
Proof.
  intros Hreach Hsock Htext Hmedia Hc Hf w'.
  pose proof (reachable_wf _ _ _ Hreach) as Hwf.
  subst w'. rewrite step_private_message by assumption.
  rewrite private_message_resolved by assumption. cbn [fst snd].
  split; [reflexivity|]. split; [|split; reflexivity].
  exists (created_doc socket env payload w).
  split; [reflexivity|]. split; [reflexivity|]. split; [reflexivity|].
  split; [simpl; now rewrite Htext|]. split; [simpl; now rewrite Hmedia|].
  cbv zeta. apply since_app. simpl. now rewrite <- app_assoc.
Qed.

(** In every run of the handler the record is stored before anything is
    emitted: each emitted packet comes after the [Stored] effect of a
    document that is in the collection.  If [Message.create] rejects, the
    handler's promise rejects and nothing has been stored or emitted. *)
Lemma private_message_stores_first w socket payload env :
  let c := fst (private_message socket env payload w) in
  let w' := snd (private_message socket env payload w) in
  (forall pre sid p post,
     since w w' = pre ++ Emit sid p :: post ->
     exists doc, In (Stored doc) pre /\ In doc (messages w')) /\
  (create_rejects env = true ->
     c = Threw "Message.create rejected" /\
     messages w' = messages w /\ since w w' = []).
Proof.
  intros c w'. subst c w'. split.
  - intros pre sid p post Hsplit.
    destruct (create_rejects env) eqn:Hc.
    + rewrite private_message_create_rejected in Hsplit by assumption.
      simpl in Hsplit. rewrite since_refl in Hsplit.
      destruct pre; discriminate.
    + destruct (private_message_effects socket env payload w Hc) as [Hm [emits Ht]].
      rewrite (since_app _ _ _ Ht) in Hsplit.
      exists (created_doc socket env payload w). split.
      * destruct pre as [|e pre]; simpl in Hsplit; [discriminate|].
        inversion Hsplit. now left.
      * rewrite Hm. apply in_app_iff. right. now left.
  - intros Hc. rewrite private_message_create_rejected by assumption. simpl.
    split; [reflexivity|]. split; [reflexivity|apply since_refl].
Qed.

(** ** Refused connections *)

Lemma io_use_rejects hs :
  truthy (js_or (auth_token hs) (query_token hs)) = false \/
  verify (js_or (auth_token hs) (query_token hs)) = None ->
  exists err, io_use hs = inl err.
Proof.
  unfold io_use. intros [H|H].
  - rewrite H. simpl. eauto.
  - rewrite H. destruct (truthy _); simpl; eauto.
Qed.

(** C5: a connection attempt whose token is missing or does not verify
    changes neither the presence map nor the set of connected sockets and
    triggers no broadcast: the only packet it causes is the [connect_error]
    on the refused connection.  Whatever happens afterwards, that connection
    is never among the connected sockets, never the handle of any identity,
    and is never sent an [online_users] or [message] event. *)
Theorem C5_refused_connection_leaves_no_trace us ms w hs :
  reachable us ms w ->
  truthy (js_or (auth_token hs) (query_token hs)) = false \/
  verify (js_or (auth_token hs) (query_token hs)) = None ->
  let sid := next_sid w in
  let w' := step w (Connection hs) in
  online w' = online w /\ onlineIdentities w' = onlineIdentities w /\
  sockets w' = sockets w /\
  exists err,
    since w w' = [Emit sid (connect_error err)] /\
    forall inputs,
      let w'' := run w' inputs in
      ~ In sid (map s_id (sockets w'')) /\
      (forall I, Map_get I (online w'') <> Some sid) /\
      received sid (trace w'') = [connect_error err] /\
      existsb is_presence_or_message (received sid (trace w'')) = false.
Proof.
  intros Hreach Hbad sid w'.
  pose proof (reachable_wf _ _ _ Hreach) as Hwf.
  destruct (io_use_rejects hs Hbad) as [err Herr].
  assert (Hw' : w' = log [Emit sid (connect_error err)] (with_next_sid (S sid) w)).
  { subst w' sid. simpl. now rewrite Herr. }
  rewrite Hw'. simpl.
  split; [reflexivity|]. split; [reflexivity|]. split; [reflexivity|].
  exists err. split; [now apply since_app|].
  intros inputs.
  set (w1 := log [Emit sid (connect_error err)] (with_next_sid (S sid) w)).
  assert (Hwf1 : wf w1) by (apply wf_connection_rejected; assumption).
  assert (Hn : not_connected sid w1).
  { split; [simpl; lia|]. simpl. now apply wf_next_sid_unused. }
  destruct (not_connected_run sid inputs w1 Hwf1 Hn) as [[_ Hout] Hrecv].
  assert (Hr : received sid (trace (run w1 inputs)) = [connect_error err]).
  { rewrite Hrecv. simpl. rewrite received_app. simpl.
    rewrite Nat.eqb_refl. rewrite received_fresh; [reflexivity|].
    apply (wf_trace_fresh _ Hwf). }
  split; [exact Hout|]. split; [|split; [exact Hr|now rewrite Hr]].
  intros I HI. apply Map_get_In in HI.
  destruct (wf_online_owner _ (wf_run _ inputs Hwf1) _ _ HI) as [s [Hs [E _]]].
  apply Hout. rewrite <- E. now apply in_map.
Qed.

(** ** Presence *)

(** C7: the presence map holds one handle per identity.  When an identity
    that is connected connects a second time, the second socket replaces the
    first as the identity's handle while the first socket stays connected;
    when the first socket then disconnects, the identity is removed from
    presence although the second socket is still connected. *)
Theorem C7_single_handle_per_identity us ms w hs1 hs2 user1 user2 :
  reachable us ms w ->
  io_use hs1 = inr user1 -> io_use hs2 = inr user2 ->
  d_id user1 = d_id user2 ->
  let I := d_id user1 in
  let s1 := next_sid w in
  let s2 := S (next_sid w) in
  let w1 := step w (Connection hs1) in
  let w2 := step w1 (Connection hs2) in
  let w3 := step w2 (Disconnect s1) in
  Map_get I (online w1) = Some s1 /\
  Map_get I (online w2) = Some s2 /\
  count_occ string_dec (onlineIdentities w2) I = 1 /\
  (forall k, Map_get k (online w2) <> Some s1) /\
  In (mkSocket s1 user1) (sockets w2) /\
  In (mkSocket s2 user2) (sockets w2) /\
  isOnline w3 I = false /\
  ~ In I (onlineIdentities w3) /\
  In (mkSocket s2 user2) (sockets w3).
Proof.
  intros Hreach H1 H2 Hsame I s1 s2 w1 w2 w3.
  pose proof (reachable_wf _ _ _ Hreach) as Hwf.
  assert (Hwf1 : wf w1) by now apply wf_step.
  assert (Hwf2 : wf w2) by now apply wf_step.
  assert (E1 : w1 = on_connection (mkSocket s1 user1)
                      (with_sockets (sockets w ++ [mkSocket s1 user1])
                         (with_next_sid (S s1) w))).
  { subst w1 s1. simpl. now rewrite H1. }
  clearbody w1.
  assert (N1 : next_sid w1 = s2) by now rewrite E1.
  assert (E2 : w2 = on_connection (mkSocket s2 user2)
                      (with_sockets (sockets w1 ++ [mkSocket s2 user2])
                         (with_next_sid (S s2) w1))).
  { subst w2. simpl. now rewrite H2, N1. }
  clearbody w2.
  assert (O1 : online w1 = Map_set I s1 (online w)) by now rewrite E1.
  assert (O2 : online w2 = Map_set I s2 (online w1)).
  { rewrite E2. simpl. unfold I. now rewrite Hsame. }
  assert (S1 : sockets w1 = sockets w ++ [mkSocket s1 user1]) by now rewrite E1.
  assert (S2 : sockets w2 = sockets w1 ++ [mkSocket s2 user2]) by now rewrite E2.
  assert (G2 : Map_get I (online w2) = Some s2) by (rewrite O2; apply Map_get_set_eq).
  assert (In1 : In (mkSocket s1 user1) (sockets w2)).
  { rewrite S2, S1, !in_app_iff. simpl. auto. }
  assert (In2 : In (mkSocket s2 user2) (sockets w2)).
  { rewrite S2, in_app_iff. simpl. auto. }
  assert (E3 : w3 = on_disconnect (mkSocket s1 user1)
                      (with_sockets (remove_socket s1 (sockets w2)) w2)).
  { subst w3. simpl.
    pose proof (find_socket_In _ (mkSocket s1 user1) (wf_sids_nodup _ Hwf2) In1) as Hf.
    simpl in Hf. now rewrite Hf. }
  assert (G3 : Map_get I (online w3) = None).
  { rewrite E3. simpl. apply Map_get_delete_eq. }
  split; [rewrite O1; apply Map_get_set_eq|]. split; [exact G2|].
  split; [eapply Map_get_count; [apply Hwf2|exact G2]|].
  split.
  { intros k Hk.
    destruct (String.eqb_spec k I) as [->|Hne].
    - rewrite G2 in Hk. inversion Hk. subst s2. lia.
    - rewrite O2, Map_get_set_ne in Hk by congruence.
      apply Map_get_In in Hk.
      destruct (wf_online_owner _ Hwf1 _ _ Hk) as [s [Hs [Es Us]]].
      assert (Hf : find_socket (s_id s) (sockets w1) = Some s)
        by now apply find_socket_In; [apply Hwf1|].
      assert (Hf1 : find_socket s1 (sockets w1) = Some (mkSocket s1 user1)).
      { apply (find_socket_In _ (mkSocket s1 user1)); [apply Hwf1|].
        rewrite S1, in_app_iff. simpl. auto. }
      rewrite Es, Hf1 in Hf. inversion Hf. subst s. simpl in Us.
      unfold I in Hne. congruence. }
  split; [exact In1|]. split; [exact In2|].
  split; [unfold isOnline; now rewrite G3|].
  split; [now apply Map_get_None_keys|].
  rewrite E3. simpl. apply In_remove_socket. split; [exact In2|]. simpl. lia.
Qed.

(** C10: when a connection is accepted and when a connected socket
    disconnects, the keys of the presence map as they are after the change
    are sent as one [online_users] event to every socket connected at that
    moment, the same list to each, and nothing else is sent. *)
Theorem C10_presence_broadcast us ms w :
  reachable us ms w ->
  (forall hs user,
     io_use hs = inr user ->
     let w' := step w (Connection hs) in
     In (mkSocket (next_sid w) user) (sockets w') /\
     since w w' =
       map (fun s => Emit (s_id s) (online_users (onlineIdentities w'))) (sockets w') /\
     forall s, In s (sockets w') ->
       new_packets w w' (s_id s) = [online_users (onlineIdentities w')]) /\
  (forall socket,
     In socket (sockets w) ->
     let w' := step w (Disconnect (s_id socket)) in
     ~ In socket (sockets w') /\
     since w w' =
       map (fun s => Emit (s_id s) (online_users (onlineIdentities w'))) (sockets w') /\
     forall s, In s (sockets w') ->
       new_packets w w' (s_id s) = [online_users (onlineIdentities w')]).
Proof.
  intros Hreach. pose proof (reachable_wf _ _ _ Hreach) as Hwf. split.
  - intros hs user Hok w'.
    assert (Hwf' : wf w') by now apply wf_step.
    assert (E : w' = on_connection (mkSocket (next_sid w) user)
                       (with_sockets (sockets w ++ [mkSocket (next_sid w) user])
                          (with_next_sid (S (next_sid w)) w))).
    { subst w'. simpl. now rewrite Hok. }
    assert (Hs : since w w' =
                 map (fun s => Emit (s_id s) (online_users (onlineIdentities w')))
                   (sockets w')).
    { apply since_app. rewrite E. reflexivity. }
    split; [rewrite E; simpl; rewrite in_app_iff; simpl; auto|].
    split; [exact Hs|].
    intros s HIn. unfold new_packets. rewrite Hs.
    apply received_broadcast; [apply Hwf'|now apply in_map].
  - intros socket HIn w'.
    assert (Hwf' : wf w') by now apply wf_step.
    assert (E : w' = on_disconnect socket
                       (with_sockets (remove_socket (s_id socket) (sockets w)) w)).
    { subst w'. simpl. now rewrite (find_socket_In _ _ (wf_sids_nodup _ Hwf) HIn). }
    assert (Hs : since w w' =
                 map (fun s => Emit (s_id s) (online_users (onlineIdentities w')))
                   (sockets w')).
    { apply since_app. rewrite E. reflexivity. }
    split.
    { rewrite E. simpl. intros H. apply In_remove_socket in H. tauto. }
    split; [exact Hs|].
    intros s Hin. unfold new_packets. rewrite Hs.
    apply received_broadcast; [apply Hwf'|now apply in_map].
Qed.

(** C9: the [from] of a persisted message is the [id] that the token
    presented at the handshake of the sending socket decoded to, whatever
    the payload contains and whatever happened on the server since the
    handshake. *)
Theorem C9_from_is_authenticated_identity us ms w hs user inputs payload env :
  reachable us ms w ->
  io_use hs = inr user ->
  let sid := next_sid w in
  let w1 := run (step w (Connection hs)) inputs in
  In sid (map s_id (sockets w1)) ->
  create_rejects env = false ->
  exists doc,
    messages (step w1 (PrivateMessage sid payload env)) = messages w1 ++ [doc] /\
    m_from doc = d_id user.
Proof.
  intros Hreach Hok sid w1 Hopen Hc.
  pose proof (reachable_wf _ _ _ Hreach) as Hwf.
  assert (Hb : bound_to sid user w1).
  { apply bound_to_run. simpl. rewrite Hok. unfold on_connection, io_emit, bound_to.
    simpl. split; [lia|].
    intros s Hs Es. apply in_app_iff in Hs as [Hs|[<-|[]]]; [|reflexivity].
    apply (wf_socket_fresh _ _ Hwf) in Hs. subst sid. lia. }
  destruct (find_socket_is_Some _ _ Hopen) as [socket Hfind].
  pose proof (find_socket_Some _ _ _ Hfind) as [Hsock Hid].
  rewrite (step_message _ _ _ _ _ Hfind).
  destruct (private_message_effects socket env payload w1 Hc) as [Hm _].
  exists (created_doc socket env payload w1). split.
  - destruct (create_rejects env || find_rejects env); exact Hm.
  - simpl. f_equal. now apply Hb.
Qed.

(** Presence is sound: an identity in the presence map has a connected
    socket.  (The converse is what a stale disconnect breaks.) *)
Lemma isOnline_has_open_session us ms w I :
  reachable us ms w -> isOnline w I = true -> has_open_session w I = true.
Proof.
  intros Hreach. pose proof (reachable_wf _ _ _ Hreach) as Hwf.
  unfold isOnline, has_open_session.
  destruct (Map_get I (online w)) as [sid|] eqn:E; [|discriminate]. intros _.
  apply Map_get_In in E. destruct (wf_online_owner _ Hwf _ _ E) as [s [Hs [_ Hu]]].
  apply existsb_exists. exists s. split; [exact Hs|]. now apply String.eqb_eq.
Qed.

(** ** History *)

Lemma authMiddleware_verified req caller :
  authMiddleware req = inr caller ->
  exists header token,
    authorization req = Some header /\ header <> EmptyString /\
    nth_error (split_on " "%char header) 1 = Some token /\
    jwt_verify token = Some caller.
Proof.
  unfold authMiddleware.
  destruct (authorization req) as [header|]; cbn [truthy negb]; [|discriminate].
  destruct (String.eqb_spec header EmptyString); cbn [negb String_of]; [discriminate|].
  destruct (nth_error (split_on " "%char header) 1) as [token|] eqn:Ht;
    cbn [verify]; [|discriminate].
  destruct (jwt_verify token) as [d|] eqn:E; [|discriminate].
  intros H. inversion H. subst. eauto 6.
Qed.

Lemma authMiddleware_header req header token :
  authorization req = Some header -> header <> EmptyString ->
  nth_error (split_on " "%char header) 1 = Some token ->
  authMiddleware req =
    match jwt_verify token with
    | Some decoded => inr decoded
    | None => inl (error_response 401 "invalid token")
    end.
Proof.
  intros Hh Hne Ht. unfold authMiddleware. rewrite Hh. cbn [truthy String_of].
  destruct (String.eqb_spec header EmptyString); [contradiction|]. cbn [negb].
  rewrite Ht. cbn [verify]. now destruct (jwt_verify token).
Qed.

Lemma io_use_auth_token token q :
  token <> EmptyString ->
  io_use (mkHandshake (Some token) q) =
    match jwt_verify token with
    | Some decoded => inr decoded
    | None => inl "invalid token"
    end.
Proof.
  intros Hne. unfold io_use, js_or. cbn [auth_token query_token truthy].
  destruct (String.eqb_spec token EmptyString); [contradiction|]. cbn [negb truthy].
  destruct (String.eqb_spec token EmptyString); [contradiction|]. cbn [negb verify].
  now destruct (jwt_verify token).
Qed.

(** C8: [GET /api/messages] verifies the caller's token on each request,
    from that request's own [Authorization] header and nothing else: the
    request is let through as [caller] exactly when the header is present
    and its second word verifies to [caller], and is answered 401
    otherwise; it is the verification a connection handshake with that token
    gets.  For a verified caller and a given other identity (both ids in the
    form the server issues them) the route returns at most 100 messages, in
    ascending [createdAt] order, each of them a stored message between the
    two identities in one direction or the other; every stored message
    between the two is returned unless the cap of 100 is reached, and then
    only by messages at least as old.  The answer depends on the request and
    the Message collection alone. *)
Theorem C8_history_query w req :
  (forall caller,
     authMiddleware req = inr caller <->
     exists header token,
       authorization req = Some header /\ header <> EmptyString /\
       nth_error (split_on " "%char header) 1 = Some token /\
       jwt_verify token = Some caller) /\
  (forall header token caller,
     authorization req = Some header ->
     nth_error (split_on " "%char header) 1 = Some token -> token <> EmptyString ->
     (authMiddleware req = inr caller <->
      io_use (mkHandshake (Some token) None) = inr caller)) /\
  (forall res,
     authMiddleware req = inl res ->
     get_api_messages w req = res /\
     (res = error_response 401 "no token" \/ res = error_response 401 "invalid token")) /\
  (forall caller other,
     authMiddleware req = inr caller ->
     query_with req = Some other ->
     canonical_id (d_id caller) = true -> canonical_id other = true ->
     let exchanged m :=
       (m_from m = d_id caller /\ m_to m = Some other) \/
       (m_from m = other /\ m_to m = Some (d_id caller)) in
     exists l,
       get_api_messages w req = messages_response l /\
       length l <= 100 /\
       StronglySorted older_or_same l /\
       (forall m, In m l -> In m (messages w) /\ exchanged m) /\
       (forall m, In m (messages w) -> exchanged m ->
          In m l \/ (length l = 100 /\ forall m', In m' l -> older_or_same m' m))) /\
  (forall w2, messages w2 = messages w -> get_api_messages w2 req = get_api_messages w req).
Proof.
  split; [|split; [|split; [|split]]].
  - intros caller. split; [apply authMiddleware_verified|].
    intros (header & token & Hh & Hne & Ht & Hv).
    rewrite (authMiddleware_header _ _ _ Hh Hne Ht). now rewrite Hv.
  - intros header token caller Hh Ht Hne.
    assert (Hheader : header <> EmptyString).
    { intros ->. simpl in Ht. discriminate. }
    rewrite (authMiddleware_header _ _ _ Hh Hheader Ht), (io_use_auth_token _ _ Hne).
    destruct (jwt_verify token); split; intros H; inversion H; reflexivity.
  - intros res Hres. split; [|now apply (authMiddleware_rejects req)].
    unfold get_api_messages. now rewrite Hres.
  - intros caller other Hok Hq _ Hother exchanged.
    exists (Message_find_between (d_id caller) other (messages w)).
    split; [apply get_api_messages_ok; auto using canonical_id_nonempty|].
    split; [apply find_between_length|].
    split; [apply find_between_sorted|]. split.
    + intros m Hm. apply find_between_sound in Hm as [Hin Hb].
      split; [exact Hin|]. now apply between_spec.
    + intros m Hin Hex. apply between_spec in Hex.
      now apply find_between_cases.
  - intros w2 Hw2. unfold get_api_messages. now rewrite Hw2.
Qed.

(** ** The account routes *)

Lemma orb_negb_truthy_false (a b : option string) :
  negb (truthy a) || negb (truthy b) = false <-> truthy a = true /\ truthy b = true.
Proof.
  clear jwt_verify. destruct (truthy a), (truthy b); simpl; intuition congruence. Qed.

Lemma find_email_None (email : string) (us : list UserDoc) :
  List.find (fun u => String.eqb (u_email u) email) us = None <->
  ~ In email (map u_email us).
Proof.
  clear jwt_verify.
  induction us as [|x us IH]; simpl; [tauto|].
  destruct (String.eqb_spec (u_email x) email) as [E|Hne].
  - split; [discriminate|]. intros H. exfalso. apply H. now left.
  - rewrite IH. tauto.
Qed.

Lemma find_email_Some (email : string) (us : list UserDoc) u :
  List.find (fun u => String.eqb (u_email u) email) us = Some u ->
  In u us /\ u_email u = email.
Proof.
  clear jwt_verify.
  intros H. apply find_some in H as [HIn E]. split; [assumption|].
  now apply String.eqb_eq.
Qed.

Lemma find_app_None {A} (f : A -> bool) (l l' : list A) :
  List.find f l = None -> List.find f (l ++ l') = List.find f l'.
Proof.
  clear jwt_verify.
  induction l as [|x l IH]; simpl; [reflexivity|].
  destruct (f x); [discriminate|assumption].
Qed.

(** X1: [POST /api/register] always answers and is all or nothing.  Either
    the world is left exactly as it was and the answer is an error (400 or
    500), or exactly one account is appended -- with the given email, which no
    account had, the hash of the given password and the display name
    defaulting to the email -- and the answer is that account's session. *)
Theorem X1_register_all_or_nothing lib env body w :
  exists reply,
    post_api_register lib env body w =
      (Returned reply, snd (post_api_register lib env body w)) /\
    ((snd (post_api_register lib env body w) = w /\
      exists status msg,
        reply = inl (error_response status msg) /\ (status = 400 \/ status = 500)) \/
     (exists email password user,
        body_email body = Some email /\ email <> EmptyString /\
        body_password body = Some password /\ password <> EmptyString /\
        ~ In email (emails w) /\
        user = mkUser (new_user_id env) email (bcrypt_hash lib (salt env) password)
                 (js_or_str (body_displayName body) email) /\
        snd (post_api_register lib env body w) = with_users (users w ++ [user]) w /\
        reply = inr (mkSession (select_user user) (createToken lib user)))).
Proof.
  clear jwt_verify.
  unfold post_api_register, try_catch, await, resolve, User_findOne, User_create.
  destruct (body_email body) as [email|] eqn:Eemail; cbn [truthy negb orb];
    [|eexists; split; [reflexivity|left; split; [reflexivity|eauto 6]]].
  destruct (String.eqb_spec email EmptyString) as [->|Hemail]; cbn [negb orb];
    [eexists; split; [reflexivity|left; split; [reflexivity|eauto 6]]|].
  destruct (body_password body) as [password|] eqn:Epwd; cbn [truthy negb];
    [|eexists; split; [reflexivity|left; split; [reflexivity|eauto 6]]].
  destruct (String.eqb_spec password EmptyString) as [->|Hpwd]; cbn [negb];
    [eexists; split; [reflexivity|left; split; [reflexivity|eauto 6]]|].
  cbn [String_of].
  destruct (findOne_rejects env);
    [eexists; split; [reflexivity|left; split; [reflexivity|eauto 6]]|].
  destruct (List.find _ (users w)) as [existing|] eqn:Efind;
    [eexists; split; [reflexivity|left; split; [reflexivity|eauto 6]]|].
  destruct (insert_rejects env);
    [eexists; split; [reflexivity|left; split; [reflexivity|eauto 6]]|].
  eexists. split; [reflexivity|]. right.
  exists email, password. eexists.
  repeat (split; [first [reflexivity|assumption|now apply find_email_None]|]).
  cbn [snd]. split; reflexivity.
Qed.

(** X2: [POST /api/login] always answers and never changes the world.  It
    answers with a session only for an account that has the given email and
    whose stored hash [bcrypt.compare] accepts for the given password; an
    unknown email and a wrong password get the same answer. *)
Theorem X2_login_reads_only lib env body w :
  exists reply,
    post_api_login lib env body w = (Returned reply, w) /\
    (forall session,
       reply = inr session ->
       exists email password user,
         body_email body = Some email /\ body_password body = Some password /\
         In user (users w) /\ u_email user = email /\
         bcrypt_compare lib password (u_passwordHash user) = true /\
         session = mkSession (select_user user) (createToken lib user)) /\
    (forall email password,
       body_email body = Some email -> email <> EmptyString ->
       body_password body = Some password -> password <> EmptyString ->
       findOne_rejects env = false ->
       (~ In email (emails w) \/
        forall user, In user (users w) -> u_email user = email ->
          bcrypt_compare lib password (u_passwordHash user) = false) ->
       reply = inl (error_response 400 "invalid credentials")).
Proof.
  clear jwt_verify.
  unfold post_api_login, try_catch, await, resolve, User_findOne.
  destruct (body_email body) as [email|] eqn:Eemail; cbn [truthy negb orb];
    [|eexists; split; [reflexivity|split; [discriminate|discriminate]]].
  destruct (String.eqb_spec email EmptyString) as [->|Hemail]; cbn [negb orb].
  { eexists; split; [reflexivity|split; [discriminate|]].
    intros e p H; inversion H; subst. congruence. }
  destruct (body_password body) as [password|] eqn:Epwd; cbn [truthy negb];
    [|eexists; split; [reflexivity|split; [discriminate|discriminate]]].
  destruct (String.eqb_spec password EmptyString) as [->|Hpwd]; cbn [negb].
  { eexists; split; [reflexivity|split; [discriminate|]].
    intros e p _ _ H; inversion H; subst. congruence. }
  cbn [String_of].
  destruct (findOne_rejects env).
  { eexists; split; [reflexivity|split; [discriminate|]]. intros; discriminate. }
  destruct (List.find _ (users w)) as [user|] eqn:Efind.
  - apply find_email_Some in Efind as [HIn Hu].
    destruct (bcrypt_compare lib password (u_passwordHash user)) eqn:Hok; cbn [negb].
    + eexists; split; [reflexivity|split].
      * intros session H. inversion H; subst. exists (u_email user), password, user.
        repeat split; assumption.
      * intros e p He _ Hp _ _ [Hno|Hbad]; inversion He; inversion Hp; subst.
        -- exfalso. apply Hno. unfold emails. now apply in_map.
        -- specialize (Hbad user HIn eq_refl). congruence.
    + eexists; split; [reflexivity|split; [discriminate|reflexivity]].
  - eexists; split; [reflexivity|split; [discriminate|reflexivity]].
Qed.

(** X3: registration and login round trip.  After a successful registration
    (email and password present, email not taken, store accepting), logging
    in with the same email and password -- [bcrypt.compare] accepting the hash
    [bcrypt.hash] made -- answers with the session of the account just
    created: same id, email and display name, and a token for them. *)
Theorem X3_register_then_login lib env env' email password name w :
  email <> EmptyString -> password <> EmptyString ->
  ~ In email (emails w) ->
  findOne_rejects env = false -> insert_rejects env = false ->
  findOne_rejects env' = false ->
  bcrypt_compare lib password (bcrypt_hash lib (salt env) password) = true ->
  let body := mkCredentials (Some email) (Some password) name in
  let w' := snd (post_api_register lib env body w) in
  let account := mkUserRef (new_user_id env) email (js_or_str name email) in
  fst (post_api_register lib env body w) =
    Returned (inr (mkSession account
                     (jwt_sign lib (mkDecoded (new_user_id env) email (js_or_str name email))))) /\
  post_api_login lib env' (mkCredentials (Some email) (Some password) None) w' =
    (Returned (inr (mkSession account
                      (jwt_sign lib (mkDecoded (new_user_id env) email (js_or_str name email))))),
     w').
Proof.
  clear jwt_verify.
  intros Hemail Hpwd Hfresh Hf Hi Hf' Hbcrypt body w' account. subst body w' account.
  apply find_email_None in Hfresh.
  assert (Hreg : post_api_register lib env (mkCredentials (Some email) (Some password) name) w =
                 (Returned (inr (mkSession
                      (mkUserRef (new_user_id env) email (js_or_str name email))
                      (jwt_sign lib (mkDecoded (new_user_id env) email (js_or_str name email))))),
                  with_users
                    (users w ++ [mkUser (new_user_id env) email
                                   (bcrypt_hash lib (salt env) password)
                                   (js_or_str name email)]) w)).
  { unfold post_api_register, try_catch, await, resolve, User_findOne, User_create.
    cbn [body_email body_password body_displayName truthy String_of].
    destruct (String.eqb_spec email EmptyString); [contradiction|].
    destruct (String.eqb_spec password EmptyString); [contradiction|].
    cbn [negb orb]. rewrite Hf, Hfresh, Hi. reflexivity. }
  rewrite Hreg. cbn [fst snd]. split; [reflexivity|].
  unfold post_api_login, try_catch, await, resolve, User_findOne.
  cbn [body_email body_password truthy String_of].
  destruct (String.eqb_spec email EmptyString); [contradiction|].
  destruct (String.eqb_spec password EmptyString); [contradiction|].
  cbn [negb orb]. rewrite Hf'. cbn [users with_users].
  rewrite (find_app_None _ _ _ Hfresh). cbn [List.find u_email]. rewrite String.eqb_refl.
  cbn [u_passwordHash]. rewrite Hbcrypt. reflexivity.
Qed.

(** ** The whole server *)

Lemma step_users w i : users (step w i) = users w.
Proof.
  destruct i as [hs|sid payload env|sid]; [simpl| |simpl].
  - destruct (io_use hs); reflexivity.
  - destruct (find_socket sid (sockets w)) as [socket|] eqn:E;
      [|simpl; now rewrite E].
    rewrite (step_message _ _ _ _ _ E).
    destruct (private_message_frame socket env payload w) as (_ & _ & _ & H).
    destruct (create_rejects env || find_rejects env); exact H.
  - destruct (find_socket sid (sockets w)); reflexivity.
Qed.

(** What a registration does to the world: nothing, or one more account
    whose email no account had. *)
Lemma post_api_register_world lib env body w :
  snd (post_api_register lib env body w) = w \/
  exists user,
    snd (post_api_register lib env body w) = with_users (users w ++ [user]) w /\
    ~ In (u_email user) (emails w).
Proof.
  clear jwt_verify.
  unfold post_api_register, try_catch, await, resolve, User_findOne, User_create.
  destruct (negb (truthy (body_email body)) || negb (truthy (body_password body)));
    [now left|].
  destruct (findOne_rejects env); [now left|].
  destruct (List.find _ (users w)) as [existing|] eqn:Efind; [now left|].
  destruct (insert_rejects env); [now left|].
  right. eexists. split; [reflexivity|]. cbn [u_email]. now apply find_email_None.
Qed.

Lemma post_api_login_world lib env body w : snd (post_api_login lib env body w) = w.
Proof.
  clear jwt_verify.
  unfold post_api_login, try_catch, await, resolve, User_findOne.
  destruct (negb (truthy (body_email body)) || negb (truthy (body_password body)));
    [reflexivity|].
  destruct (findOne_rejects env); [reflexivity|].
  destruct (List.find _ (users w)) as [user|]; [|reflexivity].
  destruct (negb (bcrypt_compare lib _ _)); reflexivity.
Qed.

Lemma serve_all_app lib w xs ys :
  serve_all lib w (xs ++ ys) = serve_all lib (serve_all lib w xs) ys.
Proof. unfold serve_all. apply fold_left_app. Qed.

(** X4: emails stay unique.  If no two accounts share an email, then after
    any sequence of socket inputs, registrations and logins no two accounts
    share an email. *)
Theorem X4_emails_stay_unique lib w calls :
  List.NoDup (emails w) -> List.NoDup (emails (serve_all lib w calls)).
Proof.
  revert w. induction calls as [|c calls IH]; intros w Hnd; simpl; [assumption|].
  apply IH. destruct c as [i|env body|env body]; simpl.
  - unfold emails. now rewrite step_users.
  - destruct (post_api_register_world lib env body w) as [->|[user [-> Hfresh]]];
      [assumption|].
    unfold emails. cbn [users with_users]. rewrite map_app. simpl.
    now apply NoDup_snoc.
  - now rewrite post_api_login_world.
Qed.

(** X5: accounts are only ever added.  After any sequence of calls the User
    collection is the one before followed by the accounts registered since;
    and an account request leaves the connected sockets, the presence map,
    the Message collection and the trace as they were. *)
Theorem X5_accounts_append_only lib w calls :
  (exists added, users (serve_all lib w calls) = users w ++ added) /\
  (forall c,
     (forall i, c <> Socket_input i) ->
     sockets (serve lib w c) = sockets w /\ online (serve lib w c) = online w /\
     messages (serve lib w c) = messages w /\ trace (serve lib w c) = trace w).
Proof.
  split.
  - revert w. induction calls as [|c calls IH]; intros w; simpl.
    + exists []. now rewrite app_nil_r.
    + destruct (IH (serve lib w c)) as [added Hadded]. rewrite Hadded.
      destruct c as [i|env body|env body]; simpl.
      * rewrite step_users. now exists added.
      * destruct (post_api_register_world lib env body w) as [->|[user [-> _]]].
        -- now exists added.
        -- cbn [users with_users]. rewrite <- app_assoc. now exists ([user] ++ added).
      * rewrite post_api_login_world. now exists added.
  - intros c Hc. destruct c as [i|env body|env body]; simpl.
    + now destruct (Hc i).
    + destruct (post_api_register_world lib env body w) as [->|[user [-> _]]];
        repeat split; reflexivity.
    + rewrite post_api_login_world. repeat split; reflexivity.
Qed.

(** ** Tokens at the two doors *)

Lemma split_on_spaceless s : spaceless s = true -> split_on " "%char s = [s].
Proof.
  induction s as [|c r IH]; simpl; [reflexivity|].
  destruct (Ascii.eqb c " "%char); simpl; [discriminate|].
  intros H. now rewrite (IH H).
Qed.

Lemma split_on_word s rest :
  spaceless s = true ->
  split_on " "%char (String.append s (String " "%char rest)) = s :: split_on " "%char rest.
Proof.
  induction s as [|c r IH]; simpl; [reflexivity|].
  destruct (Ascii.eqb c " "%char); simpl; [discriminate|].
  intros H. now rewrite (IH H).
Qed.

Lemma append_space_nonempty s rest :
  String.eqb (String.append s (String " "%char rest)) EmptyString = false.
Proof. destruct s; reflexivity. Qed.

(** X6: [authMiddleware] verifies the second space-separated word of the
    [Authorization] header and nothing else.  Whatever the first word is
    ("Bearer", "Basic", any other word), a header made of that word, one
    space and a token is accepted exactly when the token verifies, as the
    identity the token decodes to.  (Word and token are not empty: a header
    reaches the server without blanks at either end.) *)
Theorem X6_authorization_scheme_is_ignored scheme token q :
  scheme <> EmptyString -> token <> EmptyString ->
  spaceless scheme = true -> spaceless token = true ->
  authMiddleware (mkRequest (Some (String.append scheme (String " "%char token))) q) =
    match jwt_verify token with
    | Some decoded => inr decoded
    | None => inl (error_response 401 "invalid token")
    end.
Proof.
  intros _ _ Hs Ht. unfold authMiddleware. cbn [authorization truthy String_of].
  rewrite append_space_nonempty. cbn [negb].
  rewrite (split_on_word _ _ Hs), (split_on_spaceless _ Ht). reflexivity.
Qed.

(** X7: a header that is missing or empty is answered 401 "no token"; a
    header without a space -- a bare token, even one that verifies -- is
    answered 401 "invalid token". *)
Theorem X7_bare_token_is_refused header q :
  (truthy header = false ->
   authMiddleware (mkRequest header q) = inl (error_response 401 "no token")) /\
  (forall h, header = Some h -> h <> EmptyString -> spaceless h = true ->
   authMiddleware (mkRequest header q) = inl (error_response 401 "invalid token")).
Proof.
  split.
  - intros H. unfold authMiddleware. cbn [authorization]. now rewrite H.
  - intros h -> Hne Hs. unfold authMiddleware. cbn [authorization truthy String_of].
    destruct (String.eqb_spec h EmptyString); [contradiction|]. cbn [negb].
    now rewrite (split_on_spaceless _ Hs).
Qed.

(** X8: at the socket handshake a non-empty [auth.token] decides alone: the
    query token is not looked at, so a token that does not verify is refused
    whatever the query carries.  Only a missing or empty [auth.token] lets the
    query token be used. *)
Theorem X8_auth_token_takes_precedence a q :
  (truthy a = true ->
   forall q', io_use (mkHandshake a q) = io_use (mkHandshake a q')) /\
  (truthy a = true -> verify a = None ->
   io_use (mkHandshake a q) = inl "invalid token") /\
  (truthy a = false ->
   io_use (mkHandshake a q) = io_use (mkHandshake None q)).
Proof.
  unfold io_use, js_or. cbn [auth_token query_token]. split; [|split].
  - intros H q'. now rewrite H.
  - intros H Hv. now rewrite H, H, Hv.
  - intros H. rewrite H. reflexivity.
Qed.

(** X9: a token made by [createToken] for an account opens both doors for
    that account.  Provided [jwt.verify] gives back what [jwt.sign] signed and
    the token is a non-empty word, the header "Bearer <token>" passes
    [authMiddleware] and the handshake token passes [io.use], both as the
    account's id, email and display name; connecting with it registers the
    account's id in the presence map under the new socket. *)
Theorem X9_issued_token_is_accepted lib user q q' w :
  let decoded := mkDecoded (u_id user) (u_email user) (u_displayName user) in
  let token := createToken lib user in
  jwt_verify token = Some decoded ->
  spaceless token = true -> token <> EmptyString ->
  authMiddleware (mkRequest (Some (String.append "Bearer" (String " "%char token))) q)
    = inr decoded /\
  io_use (mkHandshake (Some token) q') = inr decoded /\
  Map_get (u_id user) (online (step w (Connection (mkHandshake (Some token) q'))))
    = Some (next_sid w) /\
  In (mkSocket (next_sid w) decoded)
     (sockets (step w (Connection (mkHandshake (Some token) q')))).
Proof.
  intros decoded token Hv Hs Hne.
  assert (Hio : io_use (mkHandshake (Some token) q') = inr decoded).
  { unfold io_use, js_or. cbn [auth_token query_token truthy].
    destruct (String.eqb_spec token EmptyString); [contradiction|].
    cbn [negb truthy]. destruct (String.eqb_spec token EmptyString); [contradiction|].
    cbn [negb verify]. now rewrite Hv. }
  split.
  { unfold authMiddleware. cbn [authorization truthy String_of].
    rewrite append_space_nonempty. cbn [negb].
    rewrite (split_on_word "Bearer" token eq_refl), (split_on_spaceless _ Hs).
    cbn [nth_error verify]. now rewrite Hv. }
  split; [exact Hio|].
  cbn [step]. rewrite Hio. unfold on_connection, io_emit. cbn.
  split; [apply Map_get_set_eq|]. apply in_app_iff. right. now left.
Qed.

(** ** More on the history query and the user list *)

Lemma between_sym me other m : between me other m = between other me m.
Proof. unfold between. apply orb_comm. Qed.

Lemma insert_by_createdAt_snoc m s d :
  older_or_same m d ->
  insert_by_createdAt m (s ++ [d]) = insert_by_createdAt m s ++ [d].
Proof.
  unfold older_or_same. intros Hmd. induction s as [|x s IH]; simpl.
  - destruct (Z.leb_spec (m_createdAt m) (m_createdAt d)); [reflexivity|lia].
  - destruct (m_createdAt m <=? m_createdAt x)%Z; [reflexivity|]. now rewrite IH.
Qed.

Lemma sort_createdAt_snoc l d :
  (forall m, In m l -> older_or_same m d) ->
  sort_createdAt (l ++ [d]) = sort_createdAt l ++ [d].
Proof.
  induction l as [|h t IH]; intros H; simpl; [reflexivity|].
  rewrite IH by (intros m Hm; apply H; now right).
  apply insert_by_createdAt_snoc. apply H. now left.
Qed.

Lemma find_between_saturated me other coll doc :
  100 <= length (List.filter (between me other) coll) ->
  (forall m, In m coll -> between me other m = true -> older_or_same m doc) ->
  Message_find_between me other (coll ++ [doc]) = Message_find_between me other coll.
Proof.
  intros Hlen Hold. unfold Message_find_between. rewrite List.filter_app. simpl.
  destruct (between me other doc); [|now rewrite app_nil_r].
  rewrite sort_createdAt_snoc.
  - rewrite firstn_app.
    replace (100 - length (sort_createdAt (List.filter (between me other) coll))) with 0.
    + simpl. apply app_nil_r.
    + rewrite <- (Permutation_length (sort_createdAt_perm _)). lia.
  - intros m Hm. apply filter_In in Hm as [Hin Hb]. now apply Hold.
Qed.

(** X10: the two parties of a conversation see the same history: what A
    gets for [with = B] is what B gets for [with = A], message for message
    and in the same order. *)
Theorem X10_history_is_symmetric w reqA reqB A B :
  authMiddleware reqA = inr A -> query_with reqA = Some (d_id B) ->
  authMiddleware reqB = inr B -> query_with reqB = Some (d_id A) ->
  d_id A <> EmptyString -> d_id B <> EmptyString ->
  get_api_messages w reqA = get_api_messages w reqB.
Proof.
  intros HA HqA HB HqB HneA HneB.
  rewrite (get_api_messages_ok _ _ _ _ HA HqA HneB).
  rewrite (get_api_messages_ok _ _ _ _ HB HqB HneA).
  f_equal. unfold Message_find_between. f_equal. f_equal.
  apply filter_ext. intros m. apply between_sym.
Qed.

(** X11: a full history never takes up a new message.  Once 100 messages
    between the caller and the other identity are stored, a [private_message]
    whose [createdAt] is not earlier than theirs leaves the answer of the
    history query exactly as it was, whoever sends it and whatever it
    carries. *)
Theorem X11_full_history_is_frozen w sid payload env req caller other :
  authMiddleware req = inr caller -> query_with req = Some other ->
  100 <= length (List.filter (between (d_id caller) other) (messages w)) ->
  (forall m, In m (messages w) -> between (d_id caller) other m = true ->
             (m_createdAt m <= now env)%Z) ->
  get_api_messages (step w (PrivateMessage sid payload env)) req = get_api_messages w req.
Proof.
  intros Hauth Hq Hlen Hold. unfold get_api_messages. rewrite Hauth, Hq.
  destruct (negb (truthy (Some other))); [reflexivity|]. f_equal. cbn [String_of].
  destruct (find_socket sid (sockets w)) as [socket|] eqn:E; [|simpl; now rewrite E].
  destruct (step_message_store _ _ payload env _ E) as [-> _].
  destruct (create_rejects env) eqn:Hc.
  { now rewrite private_message_create_rejected. }
  destruct (private_message_effects socket env payload w Hc) as [Hm _].
  rewrite Hm. apply find_between_saturated; [assumption|].
  intros m Hin Hb. unfold older_or_same. cbn [created_doc m_createdAt]. now apply Hold.
Qed.

(** X12: [GET /api/users] lists every account but the caller's, in
    collection order and with id, email and display name only; the caller's
    own id is never in the list.  Without a token that verifies the answer
    is a 401 and no account is listed. *)
Theorem X12_user_list_excludes_caller w req :
  (forall res, authMiddleware req = inl res ->
     get_api_users w req = inl res /\
     (res = error_response 401 "no token" \/ res = error_response 401 "invalid token")) /\
  (forall caller, authMiddleware req = inr caller ->
     exists listing,
       get_api_users w req = inr listing /\
       ~ In (d_id caller) (map r_id listing) /\
       (forall u, In u (users w) -> u_id u <> d_id caller ->
          In (mkUserRef (u_id u) (u_email u) (u_displayName u)) listing) /\
       (forall r, In r listing ->
          exists u, In u (users w) /\
                    r = mkUserRef (u_id u) (u_email u) (u_displayName u)) /\
       map r_id listing =
         List.filter (fun i => negb (String.eqb i (d_id caller))) (map u_id (users w))).
Proof.
  split.
  - intros res Hres. unfold get_api_users. rewrite Hres.
    split; [reflexivity|now apply (authMiddleware_rejects req)].
  - intros caller Hok. unfold get_api_users. rewrite Hok. eexists. split; [reflexivity|].
    split; [|split; [|split]].
    + intros H. apply in_map_iff in H as [r [Er Hr]].
      apply in_map_iff in Hr as [u [Eu Hu]]. apply filter_In in Hu as [_ Hne].
      subst r. simpl in Er. rewrite Er, String.eqb_refl in Hne. discriminate.
    + intros u Hu Hne. apply (in_map select_user). apply filter_In. split; [assumption|].
      destruct (String.eqb_spec (u_id u) (d_id caller)); [contradiction|reflexivity].
    + intros r Hr. apply in_map_iff in Hr as [u [Eu Hu]].
      apply filter_In in Hu as [Hu _]. exists u. split; [assumption|now subst r].
    + rewrite map_map. simpl. induction (users w) as [|u us IH]; simpl; [reflexivity|].
      destruct (String.eqb (u_id u) (d_id caller)); simpl; now rewrite IH.
Qed.

(** ** Invariants of the whole server *)

Lemma wf_with_users us w : wf w -> wf (with_users us w).
Proof. intros [H1 H2 H3 H4 H5 H6]. split; assumption. Qed.

Lemma wf_serve lib w c : wf w -> wf (serve lib w c).
Proof.
  intros Hwf. destruct c as [i|env body|env body]; simpl.
  - now apply wf_step.
  - destruct (post_api_register_world lib env body w) as [->|[user [-> _]]];
      [assumption|now apply wf_with_users].
  - now rewrite post_api_login_world.
Qed.

Lemma wf_serve_all lib w calls : wf w -> wf (serve_all lib w calls).
Proof.
  revert w. induction calls as [|c calls IH]; intros w H; simpl; [assumption|].
  apply IH. now apply wf_serve.
Qed.

(** An invariant of [serve] that holds initially holds after any calls. *)
Lemma serve_all_invariant lib (P : World -> Prop) :
  (forall w c, wf w -> P w -> P (serve lib w c)) ->
  forall w calls, wf w -> P w -> P (serve_all lib w calls).
Proof.
  intros Hstep w calls. revert w.
  induction calls as [|c calls IH]; intros w Hwf HP; simpl; [assumption|].
  apply IH; [now apply wf_serve|now apply Hstep].
Qed.

(** What an account request leaves alone. *)
Lemma account_call_frame lib w c :
  (forall i, c <> Socket_input i) ->
  exists us, serve lib w c = with_users us w.
Proof.
  intros Hc. destruct c as [i|env body|env body]; simpl.
  - now destruct (Hc i).
  - destruct (post_api_register_world lib env body w) as [->|[user [-> _]]];
      [exists (users w); now destruct w|eauto].
  - rewrite post_api_login_world. exists (users w). now destruct w.
Qed.

Lemma Map_delete_absent k m : Map_get k m = None -> Map_delete k m = m.
Proof.
  clear jwt_verify.
  induction m as [|[k' v'] r IH]; simpl; [reflexivity|].
  destruct (String.eqb k k'); [discriminate|]. intros H. now rewrite IH.
Qed.

(** X13: the [disconnect] handler broadcasts whether or not it changed the
    map.  When the closing connection's identity has no entry in the
    presence map (the entry went with an earlier connection of the same
    identity), the map is left as it was, and every remaining connection is
    still sent an [online_users] snapshot: the list it had before. *)
Theorem X13_orphan_disconnect_still_broadcasts us ms w socket :
  reachable us ms w ->
  In socket (sockets w) ->
  Map_get (d_id (s_user socket)) (online w) = None ->
  let w' := step w (Disconnect (s_id socket)) in
  online w' = online w /\
  sockets w' = remove_socket (s_id socket) (sockets w) /\
  since w w' =
    map (fun s => Emit (s_id s) (online_users (onlineIdentities w)))
      (remove_socket (s_id socket) (sockets w)).
Proof.
  intros Hreach HIn Hnone w'. pose proof (reachable_wf _ _ _ Hreach) as Hwf.
  assert (E : w' = on_disconnect socket
                     (with_sockets (remove_socket (s_id socket) (sockets w)) w)).
  { subst w'. simpl. now rewrite (find_socket_In _ _ (wf_sids_nodup _ Hwf) HIn). }
  rewrite E. unfold on_disconnect, io_emit, onlineIdentities.
  cbn [online sockets log with_online with_sockets s_user].
  rewrite (Map_delete_absent _ _ Hnone).
  split; [reflexivity|]. split; [reflexivity|].
  apply since_app. reflexivity.
Qed.

Lemma not_connected_serve lib sid w c :
  wf w -> not_connected sid w ->
  not_connected sid (serve lib w c) /\
  received sid (trace (serve lib w c)) = received sid (trace w).
Proof.
  intros Hwf Hn. destruct c as [i|env body|env body].
  - now apply not_connected_step.
  - destruct (account_call_frame lib w (Register env body)) as [us ->]; [discriminate|].
    split; [exact Hn|reflexivity].
  - destruct (account_call_frame lib w (Login env body)) as [us ->]; [discriminate|].
    split; [exact Hn|reflexivity].
Qed.

Lemma not_connected_serve_all lib sid calls w :
  wf w -> not_connected sid w ->
  not_connected sid (serve_all lib w calls) /\
  received sid (trace (serve_all lib w calls)) = received sid (trace w).
Proof.
  revert w. induction calls as [|c calls IH]; intros w Hwf Hn; simpl; [auto|].
  destruct (not_connected_serve lib sid w c Hwf Hn) as [Hn' Hr].
  destruct (IH (serve lib w c) (wf_serve _ _ _ Hwf) Hn') as [Hn'' Hr'].
  split; [assumption|congruence].
Qed.

(** X14: a closed socket is never written to again.  When a connected
    socket disconnects it is not sent the broadcast of its own disconnect,
    and whatever the server is asked afterwards, no packet is ever sent to
    that socket id and the id is never connected again. *)
Theorem X14_closed_socket_stays_silent lib us ms calls socket later :
  let w := serve_all lib (initial us ms) calls in
  In socket (sockets w) ->
  let w' := step w (Disconnect (s_id socket)) in
  received (s_id socket) (trace (serve_all lib w' later)) = received (s_id socket) (trace w) /\
  ~ In (s_id socket) (map s_id (sockets (serve_all lib w' later))).
Proof.
  intros w Hsock w'.
  assert (Hwf : wf w) by (apply wf_serve_all, wf_initial).
  assert (Hwf' : wf w') by now apply wf_step.
  assert (E : w' = on_disconnect socket
                     (with_sockets (remove_socket (s_id socket) (sockets w)) w)).
  { subst w'. cbn [step]. now rewrite (find_socket_In _ _ (wf_sids_nodup _ Hwf) Hsock). }
  assert (Hout : ~ In (s_id socket) (map s_id (sockets w'))).
  { rewrite E. simpl. intros H. apply in_map_iff in H as [x [Ex Hx]].
    apply In_remove_socket in Hx as [_ Hx]. contradiction. }
  assert (Hn : not_connected (s_id socket) w').
  { split; [|exact Hout]. rewrite E. simpl. now apply wf_socket_fresh. }
  destruct (not_connected_serve_all lib (s_id socket) later w' Hwf' Hn) as [[_ Hout'] Hr].
  split; [|exact Hout']. rewrite Hr, E. unfold on_disconnect, io_emit. simpl.
  rewrite received_app, received_broadcast_absent; [apply app_nil_r|].
  rewrite E in Hout. exact Hout.
Qed.

Lemma Map_delete_set_fresh k v m :
  Map_get k m = None -> Map_delete k (Map_set k v m) = m.
Proof.
  induction m as [|[k' v'] r IH]; simpl.
  - now rewrite String.eqb_refl.
  - destruct (String.eqb k k') eqn:E; [discriminate|]. simpl. rewrite E.
    intros H. now rewrite IH.
Qed.

Lemma remove_socket_fresh sid ss :
  ~ In sid (map s_id ss) -> remove_socket sid ss = ss.
Proof.
  unfold remove_socket. induction ss as [|x ss IH]; simpl; [reflexivity|].
  intros H. destruct (Nat.eqb_spec (s_id x) sid); [tauto|]. simpl. rewrite IH; tauto.
Qed.

(** X15: connecting and disconnecting again is a round trip for an identity
    that was not in the presence map: the map (order included) and the set of
    connected sockets are as before, and the two broadcasts in between are
    the only packets sent. *)
Theorem X15_connect_disconnect_round_trip lib us ms calls hs user :
  let w := serve_all lib (initial us ms) calls in
  io_use hs = inr user ->
  Map_get (d_id user) (online w) = None ->
  let w1 := step w (Connection hs) in
  let w2 := step w1 (Disconnect (next_sid w)) in
  online w2 = online w /\ sockets w2 = sockets w /\
  messages w2 = messages w /\ users w2 = users w /\
  since w w2 =
    map (fun s => Emit (s_id s) (online_users (onlineIdentities w ++ [d_id user])))
        (sockets w ++ [mkSocket (next_sid w) user])
    ++ map (fun s => Emit (s_id s) (online_users (onlineIdentities w))) (sockets w).
Proof.
  intros w Hok Hoff w1 w2.
  assert (Hwf : wf w) by (apply wf_serve_all, wf_initial).
  pose proof (wf_next_sid_unused _ Hwf) as Hfresh.
  assert (E1 : w1 = on_connection (mkSocket (next_sid w) user)
                      (with_sockets (sockets w ++ [mkSocket (next_sid w) user])
                         (with_next_sid (S (next_sid w)) w))).
  { subst w1. cbn [step]. now rewrite Hok. }
  assert (Hfind : find_socket (next_sid w) (sockets w1) = Some (mkSocket (next_sid w) user)).
  { rewrite E1. simpl. unfold find_socket. rewrite find_app_None.
    - simpl. now rewrite Nat.eqb_refl.
    - destruct (List.find _ (sockets w)) as [s|] eqn:E; [|reflexivity].
      apply find_some in E as [Hs Es]. apply Nat.eqb_eq in Es. exfalso. apply Hfresh.
      rewrite <- Es. now apply in_map. }
  assert (E2 : w2 = on_disconnect (mkSocket (next_sid w) user)
                      (with_sockets (remove_socket (next_sid w) (sockets w1)) w1)).
  { subst w2. cbn [step]. now rewrite Hfind. }
  assert (Hrem : remove_socket (next_sid w) (sockets w1) = sockets w).
  { rewrite E1. simpl. unfold remove_socket. rewrite List.filter_app. simpl.
    rewrite Nat.eqb_refl. simpl. rewrite app_nil_r. now apply remove_socket_fresh. }
  assert (Hkeys : Map_keys (Map_set (d_id user) (next_sid w) (online w))
                  = onlineIdentities w ++ [d_id user]).
  { rewrite Map_keys_set. unfold onlineIdentities.
    destruct (existsb (String.eqb (d_id user)) (Map_keys (online w))) eqn:Ex; [|reflexivity].
    exfalso. apply existsb_exists in Ex as [k [Hk Ek]]. apply String.eqb_eq in Ek. subst k.
    now apply (Map_get_None_keys _ _ Hoff). }
  rewrite E2. unfold on_disconnect, io_emit. cbn [online sockets messages users log
    with_online with_sockets s_user trace]. rewrite Hrem.
  rewrite E1. unfold on_connection, io_emit. cbn [online sockets messages users log
    with_online with_sockets with_next_sid s_user s_id trace].
  rewrite (Map_delete_set_fresh _ _ _ Hoff).
  split; [reflexivity|]. split; [reflexivity|]. split; [reflexivity|]. split; [reflexivity|].
  apply since_app. cbn [trace log with_online with_sockets with_next_sid].
  rewrite Hkeys, <- app_assoc. reflexivity.
Qed.

(** ** What the trace of the whole server contains *)

Lemma snapshots_app es1 es2 : snapshots (es1 ++ es2) = snapshots es1 ++ snapshots es2.
Proof.
  induction es1 as [|[doc|to [ids|d|msg]] es1 IH]; simpl; congruence.
Qed.

Lemma delivered_app es1 es2 : delivered (es1 ++ es2) = delivered es1 ++ delivered es2.
Proof.
  induction es1 as [|[doc|to [ids|d|msg]] es1 IH]; simpl; congruence.
Qed.

Lemma snapshots_broadcast ids (ss : list Socket) :
  snapshots (map (fun s => Emit (s_id s) (online_users ids)) ss) = repeat ids (length ss).
Proof. induction ss as [|s ss IH]; simpl; congruence. Qed.

Lemma delivered_broadcast ids (ss : list Socket) :
  delivered (map (fun s => Emit (s_id s) (online_users ids)) ss) = [].
Proof. induction ss as [|s ss IH]; simpl; congruence. Qed.

(** The effects of one run of the handler in a well-formed world. *)
Lemma private_message_delta socket env payload w :
  wf w -> In socket (sockets w) ->
  let w' := snd (private_message socket env payload w) in
  let doc := created_doc socket env payload w in
  exists es,
    trace w' = trace w ++ es /\ snapshots es = [] /\
    (messages w' = messages w \/ messages w' = messages w ++ [doc]) /\
    Forall (fun d => d = Some (populate_from (users w) doc) /\
                     messages w' = messages w ++ [doc]) (delivered es).
Proof.
  intros Hwf HIn w' doc. subst w'.
  destruct (create_rejects env) eqn:Hc.
  { rewrite private_message_create_rejected by assumption. exists []. simpl.
    rewrite app_nil_r. repeat split; auto. }
  destruct (find_rejects env) eqn:Hf.
  { rewrite private_message_find_rejected by assumption. exists [Stored doc]. simpl.
    repeat split; auto. }
  rewrite private_message_resolved by assumption. cbn [snd].
  eexists. split; [simpl; rewrite <- app_assoc; reflexivity|].
  destruct (Map_get _ (online w)); simpl; repeat split; auto.
Qed.

Lemma populate_carries us doc : carries doc (Some (populate_from us doc)).
Proof.
  eexists. split; [reflexivity|]. unfold populate_from. simpl.
  repeat (split; [reflexivity|]).
  intros r Hr. destruct (List.find _ us) as [u|] eqn:E; [|discriminate].
  inversion Hr. simpl. apply find_some in E as [_ E]. now apply String.eqb_eq.
Qed.

Lemma serve_trace_cases lib w c :
  wf w ->
  trace (serve lib w c) = trace w /\ messages (serve lib w c) = messages w \/
  (exists ids ss, trace (serve lib w c) = trace w ++ map (fun s => Emit (s_id s) (online_users ids)) ss /\
      ids = onlineIdentities (serve lib w c) /\ messages (serve lib w c) = messages w) \/
  (exists sid err, trace (serve lib w c) = trace w ++ [Emit sid (connect_error err)] /\
      messages (serve lib w c) = messages w) \/
  (exists socket env payload es,
      trace (serve lib w c) = trace w ++ es /\ snapshots es = [] /\
      (messages (serve lib w c) = messages w \/
       messages (serve lib w c) = messages w ++ [created_doc socket env payload w]) /\
      Forall (fun d => d = Some (populate_from (users w) (created_doc socket env payload w)) /\
                       messages (serve lib w c) = messages w ++ [created_doc socket env payload w])
             (delivered es)).
Proof.
  intros Hwf. destruct c as [[hs|sid payload env|sid]|env body|env body].
  - cbn [serve step]. destruct (io_use hs) as [err|user].
    + right. right. left. now exists (next_sid w), err.
    + right. left. eexists. eexists. split; [reflexivity|]. split; reflexivity.
  - cbn [serve].
    destruct (find_socket sid (sockets w)) as [socket|] eqn:E;
      [|left; simpl; now rewrite E].
    destruct (step_message_store _ _ payload env _ E) as (Hm & Ht & _). rewrite Hm, Ht.
    apply find_socket_Some in E as [HIn _]. right. right. right.
    exists socket, env, payload. now apply private_message_delta.
  - cbn [serve step]. destruct (find_socket sid (sockets w)) as [socket|] eqn:E; [|now left].
    right. left. eexists. eexists. split; [reflexivity|]. split; reflexivity.
  - destruct (account_call_frame lib w (Register env body)) as [us ->]; [discriminate|now left].
  - destruct (account_call_frame lib w (Login env body)) as [us ->]; [discriminate|now left].
Qed.

(** X16: every [online_users] snapshot the server ever sends lists each
    identity at most once. *)
Theorem X16_snapshots_list_each_identity_once lib us ms calls :
  Forall (fun ids => List.NoDup ids)
         (snapshots (trace (serve_all lib (initial us ms) calls))).
Proof.
  apply (serve_all_invariant lib
           (fun w => Forall (fun ids => List.NoDup ids) (snapshots (trace w))));
    [|apply wf_initial|constructor].
  intros w c Hwf HP.
  destruct (serve_trace_cases lib w c Hwf)
    as [[-> _]|[(ids & ss & -> & -> & _)|[(sid & err & -> & _)|(s & e & p & es & -> & Hs & _)]]].
  - assumption.
  - rewrite snapshots_app, snapshots_broadcast. apply Forall_app. split; [assumption|].
    apply List.Forall_forall. intros x Hx. apply repeat_spec in Hx. subst x.
    apply (wf_online_nodup _ (wf_serve lib w c Hwf)).
  - rewrite snapshots_app. simpl. now rewrite app_nil_r.
  - rewrite snapshots_app, Hs. now rewrite app_nil_r.
Qed.

Lemma serve_messages lib w c :
  wf w ->
  messages (serve lib w c) = messages w \/
  exists doc, messages (serve lib w c) = messages w ++ [doc] /\ m_id doc = next_oid w /\
              next_oid (serve lib w c) = S (next_oid w).
Proof.
  intros Hwf. destruct c as [[hs|sid payload env|sid]|env body|env body].
  - cbn [serve step]. destruct (io_use hs); now left.
  - cbn [serve].
    destruct (find_socket sid (sockets w)) as [socket|] eqn:E;
      [|left; simpl; now rewrite E].
    destruct (step_message_store _ _ payload env _ E) as (Hm' & _ & Ho). rewrite Hm', Ho.
    destruct (create_rejects env) eqn:Hc.
    { rewrite private_message_create_rejected by assumption. now left. }
    right. exists (created_doc socket env payload w).
    destruct (private_message_effects socket env payload w Hc) as [Hm _].
    split; [exact Hm|]. split; [reflexivity|].
    unfold private_message, await, Message_create, Message_findById_populate,
      socket_emit, io_to_emit, online_get, deliver, resolve.
    rewrite Hc. cbn [messages users insert_message].
    destruct (find_rejects env); [reflexivity|].
    cbn [sockets insert_message].
    destruct (find_socket (s_id socket) (sockets w)); cbn [online log insert_message];
      destruct (Map_get _ (online w)) as [rec|]; cbn [sockets log insert_message];
      try destruct (find_socket rec (sockets w)); reflexivity.
  - cbn [serve step]. destruct (find_socket sid (sockets w)); now left.
  - destruct (account_call_frame lib w (Register env body)) as [us ->]; [discriminate|now left].
  - destruct (account_call_frame lib w (Login env body)) as [us ->]; [discriminate|now left].
Qed.

(** X17: the Message collection is append-only.  After any sequence of
    calls it is the collection the server started on followed by the documents
    stored since, none altered or removed; and if the ids of the starting
    collection are distinct, the ids of all stored messages are distinct. *)
Theorem X17_messages_are_append_only lib us ms calls :
  (exists added, messages (serve_all lib (initial us ms) calls) = ms ++ added) /\
  (List.NoDup (map m_id ms) ->
   List.NoDup (map m_id (messages (serve_all lib (initial us ms) calls)))).
Proof.
  split.
  - apply (serve_all_invariant lib (fun w => exists added, messages w = ms ++ added));
      [|apply wf_initial|exists []; simpl; now rewrite app_nil_r].
    intros w c Hwf [added Hadded].
    destruct (serve_messages lib w c Hwf) as [->|[doc [-> _]]].
    + now exists added.
    + rewrite Hadded, <- app_assoc. now exists (added ++ [doc]).
  - intros Hnd.
    apply (serve_all_invariant lib (fun w => List.NoDup (map m_id (messages w))));
      [|apply wf_initial|exact Hnd].
    intros w c Hwf HP.
    destruct (serve_messages lib w c Hwf) as [->|[doc [-> [Hid _]]]]; [assumption|].
    rewrite map_app. simpl. apply NoDup_snoc; [assumption|].
    intros HIn. apply in_map_iff in HIn as [m [Em Hm]].
    pose proof (wf_oids_fresh _ Hwf) as Hfresh. rewrite List.Forall_forall in Hfresh.
    specialize (Hfresh m Hm). lia.
Qed.

(** X18: nothing is delivered that is not stored.  Every [message] event
    the server ever sends carries a document (never [null]) that is in the
    Message collection, with that document's id, recipient, text, media
    fields and creation time, and with a [from] that, when populated, is the
    account with the stored sender id. *)
Theorem X18_delivered_messages_are_stored lib us ms calls :
  let w := serve_all lib (initial us ms) calls in
  Forall (fun d => exists doc, In doc (messages w) /\ carries doc d)
         (delivered (trace w)).
Proof.
  apply (serve_all_invariant lib
           (fun w => Forall (fun d => exists doc, In doc (messages w) /\ carries doc d)
                            (delivered (trace w))));
    [|apply wf_initial|constructor].
  intros w c Hwf HP.
  destruct (serve_trace_cases lib w c Hwf)
    as [[-> ->]|[(ids & ss & -> & _ & ->)|[(sid & err & -> & ->)|(s & e & p & es & -> & _ & Hm & Hd)]]].
  - assumption.
  - rewrite delivered_app, delivered_broadcast, app_nil_r. assumption.
  - rewrite delivered_app. simpl. now rewrite app_nil_r.
  - rewrite delivered_app. apply Forall_app. split.
    + eapply List.Forall_impl; [|exact HP]. intros d [doc [Hin Hc]]. exists doc.
      split; [|exact Hc]. destruct Hm as [->| ->]; [assumption|].
      apply in_app_iff. now left.
    + eapply List.Forall_impl; [|exact Hd]. intros d [-> Hmsg].
      exists (created_doc s e p w). split; [|apply populate_carries].
      rewrite Hmsg. apply in_app_iff. right. now left.
Qed.

(** X19: the presence map only points at live sockets of the right
    identity.  Whenever an identity has a handle in the map, that handle is the
    id of a connected socket and that socket was opened with a token of this
    identity; so a message is never routed to a closed socket or to a socket
    of somebody else. *)
Theorem X19_handles_are_live_and_owned lib us ms calls I sid :
  let w := serve_all lib (initial us ms) calls in
  Map_get I (online w) = Some sid ->
  exists socket,
    In socket (sockets w) /\ s_id socket = sid /\ d_id (s_user socket) = I /\
    find_socket sid (sockets w) = Some socket.
Proof.
  intros w Hget.
  assert (Hwf : wf w) by (apply wf_serve_all, wf_initial).
  apply Map_get_In in Hget.
  destruct (wf_online_owner _ Hwf _ _ Hget) as [socket [Hs [Eid Eu]]].
  exists socket. repeat split; try assumption.
  rewrite <- Eid. now apply find_socket_In; [apply Hwf|].
Qed.

(** X20: the recipient is not validated.  An intent without [to] that the
    store accepts is persisted with no recipient and echoed to the sender; the
    recipient socket is looked up under the key "undefined", so nobody else
    receives it unless an identity with that very id is online. *)
Theorem X20_intent_without_recipient lib us ms calls socket payload env :
  let w := serve_all lib (initial us ms) calls in
  In socket (sockets w) ->
  payload !! "to" = None ->
  create_rejects env = false -> find_rejects env = false ->
  let w' := step w (PrivateMessage (s_id socket) payload env) in
  exists doc,
    messages w' = messages w ++ [doc] /\
    m_from doc = d_id (s_user socket) /\ m_to doc = None /\
    since w w' =
      Stored doc :: Emit (s_id socket) (message (Some (populate_from (users w) doc))) ::
      match Map_get "undefined" (online w) with
      | Some rec => [Emit rec (message (Some (populate_from (users w) doc)))]
      | None => []
      end.
Proof.
  intros w Hsock Hto Hc Hf w'.
  assert (Hwf : wf w) by (apply wf_serve_all, wf_initial).
  subst w'. rewrite step_private_message by assumption.
  rewrite private_message_resolved by assumption. cbn [snd].
  exists (created_doc socket env payload w).
  split; [reflexivity|]. split; [reflexivity|]. split; [exact Hto|].
  apply since_app. rewrite Hto. cbn [String_of log insert_message trace].
  now rewrite <- app_assoc.
Qed.

(** X21: stored but not delivered.  If [Message.create] resolves and the
    [findById] that follows rejects, the handler throws after the document has
    been stored: the message is in the collection, and no socket, the
    sender's included, is sent anything. *)
Theorem X21_stored_but_not_delivered w socket payload env :
  create_rejects env = false -> find_rejects env = true ->
  let result := private_message socket env payload w in
  (exists err, fst result = Threw err) /\
  (exists doc, messages (snd result) = messages w ++ [doc] /\
               m_from doc = d_id (s_user socket) /\ since w (snd result) = [Stored doc]) /\
  (forall sid, new_packets w (snd result) sid = []) /\
  sockets (snd result) = sockets w /\ online (snd result) = online w.
Proof.
  clear jwt_verify.
  intros Hc Hf result. subst result.
  rewrite private_message_find_rejected by assumption. cbn [fst snd].
  assert (Hs : since w (insert_message (created_doc socket env payload w) w)
               = [Stored (created_doc socket env payload w)]) by now apply since_app.
  split; [eauto|]. split.
  - exists (created_doc socket env payload w). repeat split; [exact Hs].
  - split; [|split; reflexivity]. intros sid. unfold new_packets. now rewrite Hs.
Qed.

(** X22: presence entries are isolated.  The entry of identity [J] in the
    presence map is changed by no [private_message] whose awaited store calls
    resolve, by no connection attempt that is refused or made with a token
    of another identity, and by no [disconnect] of a socket of another
    identity (or of no socket at all). *)
Theorem X22_presence_of_others_is_untouched w J :
  (forall sid payload env,
     create_rejects env = false -> find_rejects env = false ->
     online (step w (PrivateMessage sid payload env)) = online w) /\
  (forall hs,
     (forall user, io_use hs = inr user -> d_id user <> J) ->
     Map_get J (online (step w (Connection hs))) = Map_get J (online w)) /\
  (forall sid,
     (forall socket, find_socket sid (sockets w) = Some socket -> d_id (s_user socket) <> J) ->
     Map_get J (online (step w (Disconnect sid))) = Map_get J (online w)).
Proof.
  split; [|split].
  - intros sid payload env Hc Hf.
    destruct (find_socket sid (sockets w)) as [socket|] eqn:E;
      [|simpl; now rewrite E].
    rewrite (step_message _ _ _ _ _ E), Hc, Hf. cbn [orb].
    now destruct (private_message_frame socket env payload w) as (_ & H & _).
  - intros hs Hother. cbn [step]. destruct (io_use hs) as [err|user]; [reflexivity|].
    unfold on_connection, io_emit. cbn [online log with_online s_user s_id].
    apply Map_get_set_ne. now apply Hother.
  - intros sid Hother. cbn [step].
    destruct (find_socket sid (sockets w)) as [socket|] eqn:E; [|reflexivity].
    unfold on_disconnect, io_emit. cbn [online log with_online with_sockets s_user].
    apply Map_get_delete_ne. now apply Hother.
Qed.

(** X23: an email registers once.  After a successful registration, a
    second registration with the same email -- whatever password and display
    name it gives -- is answered 400 "email already taken" and creates
    nothing, as long as the lookup resolves. *)
Theorem X23_email_registers_once lib env env' body body' email w :
  body_email body = Some email -> body_email body' = Some email ->
  email <> EmptyString -> truthy (body_password body') = true ->
  (exists session, fst (post_api_register lib env body w) = Returned (inr session)) ->
  findOne_rejects env' = false ->
  let w' := snd (post_api_register lib env body w) in
  post_api_register lib env' body' w' =
    (Returned (inl (error_response 400 "email already taken")), w').
Proof.
  clear jwt_verify.
  intros He He' Hne Hpwd [session Hreg] Hf w'.
  assert (Hin : In email (emails w')).
  { subst w'. revert Hreg.
    unfold post_api_register, try_catch, await, resolve, User_findOne, User_create.
    rewrite He. cbn [String_of].
    destruct (negb (truthy (Some email)) || negb (truthy (body_password body)));
      [discriminate|].
    destruct (findOne_rejects env); [discriminate|].
    destruct (List.find _ (users w)) as [existing|]; [discriminate|].
    destruct (insert_rejects env); [discriminate|]. intros _.
    unfold emails. cbn [snd users with_users]. rewrite map_app, in_app_iff. right. now left. }
  unfold post_api_register, try_catch, await, resolve, User_findOne.
  rewrite He', Hpwd. cbn [truthy String_of].
  destruct (String.eqb_spec email EmptyString); [contradiction|]. cbn [negb orb].
  rewrite Hf.
  destruct (List.find _ (users w')) as [existing|] eqn:Efind; [reflexivity|].
  apply find_email_None in Efind. contradiction.
Qed.

End Server.

(** ** The statements on the demo deployment *)

(** u1 and u2 are connected and u1 sends "hi" to u2: one record, one event
    for each of the two sockets.  With only u1 connected, the history query of
    u1 with u2 returns the record. *)
Lemma C1_send_delivers_and_persists_witness :
  (exists doc,
     messages (run demo_verify (initial demo_users [])
                 [Connection hs_u1; Connection hs_u2; PrivateMessage 0 hi_u2 demo_env])
     = [doc] /\
     m_from doc = id_u1 /\ m_to doc = Some id_u2 /\ m_text doc = "hi" /\
     new_packets
       (run demo_verify (initial demo_users []) [Connection hs_u1; Connection hs_u2])
       (step demo_verify
          (run demo_verify (initial demo_users []) [Connection hs_u1; Connection hs_u2])
          (PrivateMessage 0 hi_u2 demo_env))
       0
     = new_packets
         (run demo_verify (initial demo_users []) [Connection hs_u1; Connection hs_u2])
         (step demo_verify
            (run demo_verify (initial demo_users []) [Connection hs_u1; Connection hs_u2])
            (PrivateMessage 0 hi_u2 demo_env))
         1) /\
  (exists doc l,
     get_api_messages demo_verify
       (step demo_verify (run demo_verify (initial demo_users []) [Connection hs_u1])
          (PrivateMessage 0 hi_u2 demo_env))
       (mkRequest (Some "Bearer tok-u1") (Some id_u2))
     = messages_response l /\
     In doc l /\ m_from doc = id_u1 /\ m_to doc = Some id_u2).
Proof.
  split.
  - destruct (C1_send_delivers_and_persists demo_verify demo_users []
                (run demo_verify (initial demo_users []) [Connection hs_u1; Connection hs_u2])
                (mkSocket 0 demo_u1) hi_u2 demo_env id_u1 id_u2)
      as (doc & u & Hm & Hfrom & Hto & Htext & _ & _ & Hon & _).
    + apply reachable_run, reachable_initial.
    + vm_compute. auto.
    + reflexivity.
    + vm_compute. auto.
    + vm_compute. reflexivity.
    + discriminate.
    + reflexivity.
    + reflexivity.
    + destruct (Hon (mkSocket 1 demo_u2)) as (_ & HA & HB & _);
        [vm_compute; auto|reflexivity|vm_compute; reflexivity|].
      exists doc. split; [exact Hm|]. split; [exact Hfrom|]. split; [exact Hto|].
      split; [exact Htext|]. exact (eq_trans HA (eq_sym HB)).
  - destruct (C1_send_delivers_and_persists demo_verify demo_users []
                (run demo_verify (initial demo_users []) [Connection hs_u1])
                (mkSocket 0 demo_u1) hi_u2 demo_env id_u1 id_u2)
      as (doc & u & _ & Hfrom & Hto & _ & _ & _ & _ & Hoff).
    + apply reachable_run, reachable_initial.
    + vm_compute. auto.
    + reflexivity.
    + vm_compute. auto.
    + vm_compute. reflexivity.
    + discriminate.
    + reflexivity.
    + reflexivity.
    + destruct Hoff as (_ & _ & Hquery); [vm_compute; reflexivity|].
      destruct (Hquery (mkRequest (Some "Bearer tok-u1") (Some id_u2)) demo_u1)
        as (l & Hl & Hin).
      * reflexivity.
      * reflexivity.
      * reflexivity.
      * reflexivity.
      * reflexivity.
      * vm_compute. lia.
      * exists doc, l. split; [exact Hl|]. split; [exact Hin|]. split; [exact Hfrom|exact Hto].
Defined.

(** C1, the claim as stated, at a pair that already has 100 stored messages
    (sent at times 1 to 100): u1, online, sends a 101st message to u2, who is
    offline (no connection of u2 is open, none is registered), at time 2000.
    It is persisted, and the history query of u1 with u2 that follows returns
    100 messages, none of which is the new one. *)
Lemma C1_history_cap_counterexample :
  has_open_session
    (run demo_verify (initial demo_users [])
       (Connection hs_u1 :: map (fun n => PrivateMessage 0 hi_u2 (mkEnv (Z.of_nat n) false false)) (seq 1 100)))
    id_u2 = false /\
  Map_get id_u2
    (online (run demo_verify (initial demo_users [])
               (Connection hs_u1 :: map (fun n => PrivateMessage 0 hi_u2 (mkEnv (Z.of_nat n) false false)) (seq 1 100)))) = None /\
  exists doc l,
    messages (run demo_verify (initial demo_users [])
                (Connection hs_u1 :: map (fun n => PrivateMessage 0 hi_u2 (mkEnv (Z.of_nat n) false false)) (seq 1 100)
                 ++ [PrivateMessage 0 late_u2 (mkEnv 2000 false false)]))
    = messages (run demo_verify (initial demo_users [])
                  (Connection hs_u1 :: map (fun n => PrivateMessage 0 hi_u2 (mkEnv (Z.of_nat n) false false)) (seq 1 100)))
      ++ [doc] /\
    m_from doc = id_u1 /\ m_to doc = Some id_u2 /\ m_text doc = "late" /\
    get_api_messages demo_verify
      (run demo_verify (initial demo_users [])
         (Connection hs_u1 :: map (fun n => PrivateMessage 0 hi_u2 (mkEnv (Z.of_nat n) false false)) (seq 1 100)
          ++ [PrivateMessage 0 late_u2 (mkEnv 2000 false false)]))
      (mkRequest (Some "Bearer tok-u1") (Some id_u2))
    = messages_response l /\
    length l = 100 /\ ~ In doc l.
Proof.
  split; [vm_compute; reflexivity|]. split; [vm_compute; reflexivity|].
  exists (mkMessage 100 id_u1 (Some id_u2) "late" None None 2000).
  eexists. split; [vm_compute; reflexivity|].
  split; [reflexivity|]. split; [reflexivity|]. split; [reflexivity|].
  split; [vm_compute; reflexivity|]. split; [reflexivity|].
  intros H. apply (in_map m_id) in H. vm_compute in H.
  repeat (destruct H as [H|H]; [discriminate H|]). exact H.
Qed.

(** C3, the claim as stated, at an intent with only a [to]: the handler
    returns normally, a record is created and the sender is sent the event. *)
Lemma C3_unvalidated_intent_counterexample :
  bare_u2 !! "text" = None /\ bare_u2 !! "mediaUrl" = None /\
  fst (private_message (mkSocket 0 demo_u1) demo_env bare_u2
         (run demo_verify (initial demo_users []) [Connection hs_u1])) = Returned tt /\
  messages (run demo_verify (initial demo_users [])
              [Connection hs_u1; PrivateMessage 0 bare_u2 demo_env])
  = [mkMessage 0 id_u1 (Some id_u2) EmptyString None None 1000] /\
  new_packets (run demo_verify (initial demo_users []) [Connection hs_u1])
    (run demo_verify (initial demo_users [])
       [Connection hs_u1; PrivateMessage 0 bare_u2 demo_env]) 0
  = [message (Some (mkPopulated 0 (Some (mkUserRef id_u1 "u1@example.org" "Ann"))
                      (Some id_u2) EmptyString None None 1000))].
Proof. vm_compute. repeat split; reflexivity. Qed.

(** The amended statement at the same intent, u2 being connected: the
    record is stored, then the event goes to the sender and to u2. *)
Lemma C3_empty_intent_is_processed_witness :
  exists doc,
    messages (step demo_verify
                (run demo_verify (initial demo_users []) [Connection hs_u1; Connection hs_u2])
                (PrivateMessage 0 bare_u2 demo_env))
    = messages (run demo_verify (initial demo_users []) [Connection hs_u1; Connection hs_u2])
      ++ [doc] /\
    m_text doc = EmptyString /\ m_mediaUrl doc = None /\
    exists ev,
      since (run demo_verify (initial demo_users []) [Connection hs_u1; Connection hs_u2])
        (step demo_verify
           (run demo_verify (initial demo_users []) [Connection hs_u1; Connection hs_u2])
           (PrivateMessage 0 bare_u2 demo_env))
      = [Stored doc; Emit 0 ev; Emit 1 ev].
Proof.
  destruct (C3_empty_intent_is_processed demo_verify demo_users []
              (run demo_verify (initial demo_users []) [Connection hs_u1; Connection hs_u2])
              (mkSocket 0 demo_u1) bare_u2 demo_env)
    as (_ & (doc & Hm & _ & _ & Ht & Hu & Hs) & _).
  - apply reachable_run, reachable_initial.
  - vm_compute. auto.
  - vm_compute. reflexivity.
  - vm_compute. reflexivity.
  - reflexivity.
  - reflexivity.
  - exists doc. split; [exact Hm|]. split; [exact Ht|]. split; [exact Hu|].
    eexists. exact Hs.
Defined.

(** C4 (the code's slip): u1 and u2 are connected and u1 sends an intent that
    [Message.create] rejects (its [to] is not an ObjectId).  The handler's
    promise rejects; nothing is stored and nothing is emitted, as the claim
    says; but the rejection is handled nowhere, the process ends, and no
    session is left, the sender's included: u1 is neither connected nor
    registered afterwards.  (The account routes catch the same rejections
    and answer 500.) *)
Lemma C4_rejected_create_ends_the_process :
  create_rejects cast_fails = true /\
  map s_id (sockets (run demo_verify (initial demo_users [])
                       [Connection hs_u1; Connection hs_u2])) = [0; 1] /\
  fst (private_message (mkSocket 0 demo_u1) cast_fails bob_intent
         (run demo_verify (initial demo_users []) [Connection hs_u1; Connection hs_u2]))
  = Threw "Message.create rejected" /\
  messages (run demo_verify (initial demo_users [])
              [Connection hs_u1; Connection hs_u2; PrivateMessage 0 bob_intent cast_fails])
  = [] /\
  since (run demo_verify (initial demo_users []) [Connection hs_u1; Connection hs_u2])
    (run demo_verify (initial demo_users [])
       [Connection hs_u1; Connection hs_u2; PrivateMessage 0 bob_intent cast_fails])
  = [] /\
  sockets (run demo_verify (initial demo_users [])
             [Connection hs_u1; Connection hs_u2; PrivateMessage 0 bob_intent cast_fails])
  = [] /\
  has_open_session
    (run demo_verify (initial demo_users [])
       [Connection hs_u1; Connection hs_u2; PrivateMessage 0 bob_intent cast_fails])
    id_u1 = false /\
  isOnline
    (run demo_verify (initial demo_users [])
       [Connection hs_u1; Connection hs_u2; PrivateMessage 0 bob_intent cast_fails])
    id_u1 = false.
Proof. vm_compute. repeat split; reflexivity. Qed.

(** A forged token and an empty token are both refused; the refused socket
    stays silent while u2 connects, u1 sends a message and disconnects. *)
Lemma C5_refused_connection_leaves_no_trace_witness :
  verify demo_verify (js_or (auth_token hs_bad) (query_token hs_bad)) = None /\
  truthy (js_or (auth_token hs_none) (query_token hs_none)) = false /\
  onlineIdentities
    (step demo_verify (run demo_verify (initial demo_users []) [Connection hs_u1])
       (Connection hs_bad))
  = onlineIdentities (run demo_verify (initial demo_users []) [Connection hs_u1]) /\
  sockets
    (step demo_verify (run demo_verify (initial demo_users []) [Connection hs_u1])
       (Connection hs_none))
  = sockets (run demo_verify (initial demo_users []) [Connection hs_u1]) /\
  existsb is_presence_or_message
    (received (next_sid (run demo_verify (initial demo_users []) [Connection hs_u1]))
       (trace (run demo_verify
                 (step demo_verify
                    (run demo_verify (initial demo_users []) [Connection hs_u1])
                    (Connection hs_bad))
                 [Connection hs_u2; PrivateMessage 0 hi_u2 demo_env; Disconnect 0])))
  = false.
Proof.
  split; [reflexivity|]. split; [reflexivity|].
  destruct (C5_refused_connection_leaves_no_trace demo_verify demo_users []
              (run demo_verify (initial demo_users []) [Connection hs_u1]) hs_bad)
    as (_ & Hids & _ & err & _ & Hlater).
  { apply reachable_run, reachable_initial. }
  { right. reflexivity. }
  destruct (C5_refused_connection_leaves_no_trace demo_verify demo_users []
              (run demo_verify (initial demo_users []) [Connection hs_u1]) hs_none)
    as (_ & _ & Hsock & _).
  { apply reachable_run, reachable_initial. }
  { left. reflexivity. }
  split; [exact Hids|]. split; [exact Hsock|].
  destruct (Hlater [Connection hs_u2; PrivateMessage 0 hi_u2 demo_env; Disconnect 0])
    as (_ & _ & _ & Hquiet).
  exact Hquiet.
Defined.

(** u1 connects twice and the first socket disconnects. *)
Lemma C7_single_handle_per_identity_witness :
  isOnline (run demo_verify (initial demo_users [])
              [Connection hs_u1; Connection hs_u1; Disconnect 0]) id_u1 = false /\
  In (mkSocket 1 demo_u1)
     (sockets (run demo_verify (initial demo_users [])
                 [Connection hs_u1; Connection hs_u1; Disconnect 0])) /\
  Map_get id_u1 (online (run demo_verify (initial demo_users [])
                          [Connection hs_u1; Connection hs_u1])) = Some 1.
Proof.
  destruct (C7_single_handle_per_identity demo_verify demo_users [] (initial demo_users [])
              hs_u1 hs_u1 demo_u1 demo_u1)
    as (_ & Hget & _ & _ & _ & _ & Hoff & _ & Hopen).
  - apply reachable_initial.
  - reflexivity.
  - reflexivity.
  - reflexivity.
  - split; [exact Hoff|]. split; [exact Hopen|exact Hget].
Defined.

(** u1 asks for its history with u2 after sending one message; the same
    token opens a connection as u1. *)
Lemma C8_history_query_witness :
  authMiddleware demo_verify (mkRequest (Some "Bearer tok-u1") (Some id_u2)) = inr demo_u1 /\
  io_use demo_verify (mkHandshake (Some "tok-u1") None) = inr demo_u1 /\
  exists l,
    get_api_messages demo_verify
      (run demo_verify (initial demo_users [])
         [Connection hs_u1; PrivateMessage 0 hi_u2 demo_env])
      (mkRequest (Some "Bearer tok-u1") (Some id_u2)) = messages_response l /\
    length l <= 100 /\
    StronglySorted older_or_same l.
Proof.
  destruct (C8_history_query demo_verify
              (run demo_verify (initial demo_users [])
                 [Connection hs_u1; PrivateMessage 0 hi_u2 demo_env])
              (mkRequest (Some "Bearer tok-u1") (Some id_u2)))
    as (Hiff & Hsame & _ & H & _).
  assert (Hauth : authMiddleware demo_verify (mkRequest (Some "Bearer tok-u1") (Some id_u2))
                  = inr demo_u1).
  { apply Hiff. exists "Bearer tok-u1", "tok-u1".
    split; [reflexivity|]. split; [discriminate|]. split; reflexivity. }
  split; [exact Hauth|]. split.
  - apply (Hsame "Bearer tok-u1" "tok-u1" demo_u1);
      [reflexivity|reflexivity|discriminate|exact Hauth].
  - destruct (H demo_u1 id_u2) as (l & Hr & Hlen & Hsorted & _).
    + exact Hauth.
    + reflexivity.
    + reflexivity.
    + reflexivity.
    + exists l. split; [exact Hr|]. split; [exact Hlen|exact Hsorted].
Defined.

(** u1 sends a payload that carries a [from] property naming u2: the stored
    [from] is u1. *)
Lemma C9_from_is_authenticated_identity_witness :
  forged_u2 !! "from" = Some id_u2 /\
  exists doc,
    messages (run demo_verify (initial demo_users [])
                [Connection hs_u1; Connection hs_u2; PrivateMessage 0 forged_u2 demo_env])
    = [doc] /\
    m_from doc = id_u1.
Proof.
  split; [vm_compute; reflexivity|].
  destruct (C9_from_is_authenticated_identity demo_verify demo_users [] (initial demo_users [])
              hs_u1 demo_u1 [Connection hs_u2] forged_u2 demo_env)
    as (doc & Hm & Hfrom).
  - apply reachable_initial.
  - reflexivity.
  - vm_compute. auto.
  - reflexivity.
  - exists doc. split; [exact Hm|exact Hfrom].
Defined.

(** What socket 0 is sent when u2 connects, and socket 1 when socket 0
    disconnects. *)
Lemma C10_presence_broadcast_witness :
  new_packets (run demo_verify (initial demo_users []) [Connection hs_u1])
    (run demo_verify (initial demo_users []) [Connection hs_u1; Connection hs_u2]) 0
  = [online_users [id_u1; id_u2]] /\
  new_packets (run demo_verify (initial demo_users []) [Connection hs_u1; Connection hs_u2])
    (run demo_verify (initial demo_users []) [Connection hs_u1; Connection hs_u2; Disconnect 0]) 1
  = [online_users [id_u2]].
Proof.
  split.
  - destruct (C10_presence_broadcast demo_verify demo_users []
                (run demo_verify (initial demo_users []) [Connection hs_u1])) as [H _].
    { apply reachable_run, reachable_initial. }
    destruct (H hs_u2 demo_u2 eq_refl) as (_ & _ & Hall).
    apply (Hall (mkSocket 0 demo_u1)). vm_compute. auto.
  - destruct (C10_presence_broadcast demo_verify demo_users []
                (run demo_verify (initial demo_users []) [Connection hs_u1; Connection hs_u2]))
      as [_ H].
    { apply reachable_run, reachable_initial. }
    destruct (H (mkSocket 0 demo_u1)) as (_ & _ & Hall).
    { vm_compute. auto. }
    apply (Hall (mkSocket 1 demo_u2)). vm_compute. auto.
Defined.

(** ** Where the server departs from the intended behaviour *)

(** C2 at its failing input: identity u1 connects twice (sockets 0 and 1)
    and socket 0 disconnects.  Socket 1 is still connected, yet u1 is not in
    the presence map and the broadcast that follows lists nobody. *)
Lemma C2_stale_disconnect_drops_presence :
  isOnline (run demo_verify (initial demo_users []) [Connection hs_u1; Connection hs_u1]) id_u1
  = true /\
  isOnline (run demo_verify (initial demo_users [])
              [Connection hs_u1; Connection hs_u1; Disconnect 0]) id_u1 = false /\
  has_open_session (run demo_verify (initial demo_users [])
                      [Connection hs_u1; Connection hs_u1; Disconnect 0]) id_u1 = true /\
  sockets (run demo_verify (initial demo_users [])
             [Connection hs_u1; Connection hs_u1; Disconnect 0]) = [mkSocket 1 demo_u1] /\
  new_packets (run demo_verify (initial demo_users []) [Connection hs_u1; Connection hs_u1])
    (run demo_verify (initial demo_users []) [Connection hs_u1; Connection hs_u1; Disconnect 0]) 1
  = [online_users []].
Proof. vm_compute. repeat split; reflexivity. Qed.

(** C6 at its failing input: u1, connected as socket 0, sends a message
    addressed to itself.  The socket is sent the same [message] event twice:
    once as the sender and once as the registered handle of the recipient. *)
Lemma C6_self_message_echoed_twice :
  hi_u1 !! "to" = Some id_u1 /\
  messages (run demo_verify (initial demo_users [])
              [Connection hs_u1; PrivateMessage 0 hi_u1 demo_env])
  = [mkMessage 0 id_u1 (Some id_u1) "hi" None None 1000] /\
  new_packets (run demo_verify (initial demo_users []) [Connection hs_u1])
    (run demo_verify (initial demo_users [])
       [Connection hs_u1; PrivateMessage 0 hi_u1 demo_env]) 0
  = [message (Some (mkPopulated 0 (Some (mkUserRef id_u1 "u1@example.org" "Ann"))
                      (Some id_u1) "hi" None None 1000));
     message (Some (mkPopulated 0 (Some (mkUserRef id_u1 "u1@example.org" "Ann"))
                      (Some id_u1) "hi" None None 1000))].
Proof. vm_compute. repeat split; reflexivity. Qed.

(** ** The further statements on the demo deployment *)

(** Ann registers on an empty server and logs in. *)
Lemma X3_register_then_login_witness :
  fst (post_api_register demo_lib ann_env
         (mkCredentials (Some "u1@example.org") (Some "secret") (Some "Ann"))
         (initial [] []))
  = Returned (inr (mkSession (mkUserRef id_u1 "u1@example.org" "Ann") "tok-u1")) /\
  fst (post_api_login demo_lib ann_env
         (mkCredentials (Some "u1@example.org") (Some "secret") None)
         (snd (post_api_register demo_lib ann_env
                 (mkCredentials (Some "u1@example.org") (Some "secret") (Some "Ann"))
                 (initial [] []))))
  = Returned (inr (mkSession (mkUserRef id_u1 "u1@example.org" "Ann") "tok-u1")).
Proof.
  destruct (X3_register_then_login demo_lib ann_env ann_env "u1@example.org" "secret"
              (Some "Ann") (initial [] [])) as [Hreg Hlogin].
  - discriminate.
  - discriminate.
  - simpl. tauto.
  - reflexivity.
  - reflexivity.
  - reflexivity.
  - reflexivity.
  - split; [exact Hreg|]. exact (f_equal fst Hlogin).
Defined.

(** A wrong password for Ann's account. *)
Lemma X2_login_reads_only_witness :
  exists reply,
    post_api_login demo_lib ann_env
      (mkCredentials (Some "u1@example.org") (Some "guess") None)
      (initial [mkUser id_u1 "u1@example.org" "salt$secret" "Ann"] [])
    = (Returned reply, initial [mkUser id_u1 "u1@example.org" "salt$secret" "Ann"] []) /\
    reply = inl (error_response 400 "invalid credentials").
Proof.
  destruct (X2_login_reads_only demo_lib ann_env
              (mkCredentials (Some "u1@example.org") (Some "guess") None)
              (initial [mkUser id_u1 "u1@example.org" "salt$secret" "Ann"] []))
    as (reply & Hrun & _ & Hbad).
  exists reply. split; [exact Hrun|].
  apply (Hbad "u1@example.org" "guess"); try reflexivity; try discriminate.
  right. intros user [<-|[]] _. reflexivity.
Defined.

(** Two registrations with the same email. *)
Lemma X4_emails_stay_unique_witness :
  List.NoDup
    (emails (serve_all demo_verify demo_lib (initial [] [])
               [Register ann_env ann_body; Register ann_env ann_body;
                Socket_input (Connection hs_u1); Login ann_env ann_login])).
Proof.
  apply (X4_emails_stay_unique demo_verify demo_lib (initial [] [])). constructor.
Defined.

Lemma X5_accounts_append_only_witness :
  sockets (serve demo_verify demo_lib
             (run demo_verify (initial [] []) [Connection hs_u1])
             (Register ann_env ann_body))
  = sockets (run demo_verify (initial [] []) [Connection hs_u1]).
Proof.
  destruct (X5_accounts_append_only demo_verify demo_lib
              (run demo_verify (initial [] []) [Connection hs_u1]) []) as [_ H].
  destruct (H (Register ann_env ann_body)) as [Hs _]; [discriminate|exact Hs].
Defined.

(** The scheme "Basic" in front of Ann's token. *)
Lemma X6_authorization_scheme_is_ignored_witness :
  authMiddleware demo_verify (mkRequest (Some "Basic tok-u1") None) = inr demo_u1.
Proof.
  apply (X6_authorization_scheme_is_ignored demo_verify "Basic" "tok-u1" None);
    [discriminate|discriminate|reflexivity|reflexivity].
Defined.

(** Ann's token alone in the header. *)
Lemma X7_bare_token_is_refused_witness :
  demo_verify "tok-u1" = Some demo_u1 /\
  authMiddleware demo_verify (mkRequest (Some "tok-u1") None)
  = inl (error_response 401 "invalid token").
Proof.
  split; [reflexivity|].
  destruct (X7_bare_token_is_refused demo_verify (Some "tok-u1") None) as [_ H].
  apply (H "tok-u1"); [reflexivity|discriminate|reflexivity].
Defined.

(** A forged [auth.token] beside Ann's token in the query. *)
Lemma X8_auth_token_takes_precedence_witness :
  io_use demo_verify (mkHandshake (Some "forged") (Some "tok-u1")) = inl "invalid token" /\
  io_use demo_verify (mkHandshake (Some EmptyString) (Some "tok-u1"))
  = io_use demo_verify (mkHandshake None (Some "tok-u1")).
Proof.
  destruct (X8_auth_token_takes_precedence demo_verify (Some "forged") (Some "tok-u1"))
    as (_ & H & _).
  destruct (X8_auth_token_takes_precedence demo_verify (Some EmptyString) (Some "tok-u1"))
    as (_ & _ & H').
  split; [apply H; reflexivity|apply H'; reflexivity].
Defined.

Lemma X9_issued_token_is_accepted_witness :
  io_use demo_verify
    (mkHandshake (Some (createToken demo_lib (mkUser id_u1 "u1@example.org" "salt$secret" "Ann")))
       None)
  = inr (mkDecoded id_u1 "u1@example.org" "Ann").
Proof.
  destruct (X9_issued_token_is_accepted demo_verify demo_lib
              (mkUser id_u1 "u1@example.org" "salt$secret" "Ann") None None (initial [] []))
    as (_ & H & _).
  - reflexivity.
  - reflexivity.
  - discriminate.
  - exact H.
Defined.

(** u1 asks for its history with u2 and u2 for its history with u1. *)
Lemma X10_history_is_symmetric_witness :
  get_api_messages demo_verify
    (run demo_verify (initial demo_users [])
       [Connection hs_u1; PrivateMessage 0 hi_u2 demo_env])
    (mkRequest (Some "Bearer tok-u1") (Some id_u2))
  = get_api_messages demo_verify
      (run demo_verify (initial demo_users [])
         [Connection hs_u1; PrivateMessage 0 hi_u2 demo_env])
      (mkRequest (Some "Bearer tok-u2") (Some id_u1)).
Proof.
  apply (X10_history_is_symmetric demo_verify _ _ _ demo_u1 demo_u2);
    try reflexivity; discriminate.
Defined.

(** A pair with 100 stored messages, created at times 0 to 99, and a message
    sent at time 1000. *)
Lemma X11_full_history_is_frozen_witness :
  get_api_messages demo_verify
    (step demo_verify
       (run demo_verify
          (initial demo_users
             (map (fun n => mkMessage n id_u1 (Some id_u2) "old" None None (Z.of_nat n))
                  (seq 0 100)))
          [Connection hs_u1])
       (PrivateMessage 0 hi_u2 demo_env))
    (mkRequest (Some "Bearer tok-u1") (Some id_u2))
  = get_api_messages demo_verify
      (run demo_verify
         (initial demo_users
            (map (fun n => mkMessage n id_u1 (Some id_u2) "old" None None (Z.of_nat n))
                 (seq 0 100)))
         [Connection hs_u1])
      (mkRequest (Some "Bearer tok-u1") (Some id_u2)).
Proof.
  apply (X11_full_history_is_frozen demo_verify _ 0 hi_u2 demo_env _ demo_u1 id_u2).
  - reflexivity.
  - reflexivity.
  - vm_compute. apply le_n.
  - intros m Hm _.
    change (In m (map (fun n => mkMessage n id_u1 (Some id_u2) "old" None None (Z.of_nat n))
                      (seq 0 100))) in Hm.
    apply in_map_iff in Hm as [n [<- Hn]]. apply in_seq in Hn. simpl. lia.
Defined.

Lemma X12_user_list_excludes_caller_witness :
  get_api_users demo_verify (initial demo_users []) (mkRequest (Some "Bearer tok-u1") None)
  = inr [mkUserRef id_u2 "u2@example.org" "Bob"] /\
  get_api_users demo_verify (initial demo_users []) (mkRequest None None)
  = inl (error_response 401 "no token").
Proof.
  destruct (X12_user_list_excludes_caller demo_verify (initial demo_users [])
              (mkRequest (Some "Bearer tok-u1") None)) as [_ H].
  destruct (H demo_u1 eq_refl) as (listing & Hl & _).
  destruct (X12_user_list_excludes_caller demo_verify (initial demo_users [])
              (mkRequest None None)) as [H' _].
  destruct (H' (error_response 401 "no token") eq_refl) as [Hr _].
  split; [|exact Hr]. reflexivity.
Defined.

(** u1 connects twice and u2 once; the first connection of u1 closes, which
    takes u1 out of the map; when the second closes, u2 is sent the same list
    again. *)
Lemma X13_orphan_disconnect_still_broadcasts_witness :
  onlineIdentities
    (run demo_verify (initial demo_users [])
       [Connection hs_u1; Connection hs_u1; Connection hs_u2; Disconnect 0]) = [id_u2] /\
  online (step demo_verify
            (run demo_verify (initial demo_users [])
               [Connection hs_u1; Connection hs_u1; Connection hs_u2; Disconnect 0])
            (Disconnect 1))
  = online (run demo_verify (initial demo_users [])
              [Connection hs_u1; Connection hs_u1; Connection hs_u2; Disconnect 0]) /\
  new_packets
    (run demo_verify (initial demo_users [])
       [Connection hs_u1; Connection hs_u1; Connection hs_u2; Disconnect 0])
    (step demo_verify
       (run demo_verify (initial demo_users [])
          [Connection hs_u1; Connection hs_u1; Connection hs_u2; Disconnect 0])
       (Disconnect 1))
    2 = [online_users [id_u2]].
Proof.
  split; [vm_compute; reflexivity|].
  destruct (X13_orphan_disconnect_still_broadcasts demo_verify demo_users []
              (run demo_verify (initial demo_users [])
                 [Connection hs_u1; Connection hs_u1; Connection hs_u2; Disconnect 0])
              (mkSocket 1 demo_u1)) as (Ho & _ & Hs).
  - apply reachable_run, reachable_initial.
  - vm_compute. auto.
  - vm_compute. reflexivity.
  - split; [exact Ho|]. unfold new_packets.
    change (Disconnect 1) with (Disconnect (s_id (mkSocket 1 demo_u1))).
    rewrite Hs. vm_compute. reflexivity.
Defined.

(** u1 connects, sends a message and disconnects; u2 connects afterwards. *)
Lemma X14_closed_socket_stays_silent_witness :
  received 0
    (trace (serve_all demo_verify demo_lib
              (step demo_verify
                 (serve_all demo_verify demo_lib (initial demo_users [])
                    [Socket_input (Connection hs_u1)])
                 (Disconnect 0))
              [Socket_input (Connection hs_u2); Socket_input (PrivateMessage 1 hi_u1 demo_env)]))
  = received 0
      (trace (serve_all demo_verify demo_lib (initial demo_users [])
                [Socket_input (Connection hs_u1)])).
Proof.
  destruct (X14_closed_socket_stays_silent demo_verify demo_lib demo_users []
              [Socket_input (Connection hs_u1)] (mkSocket 0 demo_u1)
              [Socket_input (Connection hs_u2); Socket_input (PrivateMessage 1 hi_u1 demo_env)])
    as [H _].
  - simpl. auto.
  - exact H.
Defined.

Lemma X15_connect_disconnect_round_trip_witness :
  online (step demo_verify
            (step demo_verify
               (serve_all demo_verify demo_lib (initial demo_users [])
                  [Socket_input (Connection hs_u1)])
               (Connection hs_u2))
            (Disconnect
               (next_sid (serve_all demo_verify demo_lib (initial demo_users [])
                            [Socket_input (Connection hs_u1)]))))
  = online (serve_all demo_verify demo_lib (initial demo_users [])
              [Socket_input (Connection hs_u1)]).
Proof.
  destruct (X15_connect_disconnect_round_trip demo_verify demo_lib demo_users []
              [Socket_input (Connection hs_u1)] hs_u2 demo_u2) as [H _].
  - reflexivity.
  - reflexivity.
  - exact H.
Defined.

Lemma X17_messages_are_append_only_witness :
  List.NoDup
    (map m_id
       (messages (serve_all demo_verify demo_lib
                    (initial demo_users [mkMessage 4 id_u2 (Some id_u1) "old" None None 5])
                    [Socket_input (Connection hs_u1);
                     Socket_input (PrivateMessage 0 hi_u2 demo_env);
                     Socket_input (PrivateMessage 0 hi_u2 demo_env)]))).
Proof.
  destruct (X17_messages_are_append_only demo_verify demo_lib demo_users
              [mkMessage 4 id_u2 (Some id_u1) "old" None None 5]
              [Socket_input (Connection hs_u1);
               Socket_input (PrivateMessage 0 hi_u2 demo_env);
               Socket_input (PrivateMessage 0 hi_u2 demo_env)]) as [_ H].
  apply H. simpl. constructor; [tauto|constructor].
Defined.

Lemma X19_handles_are_live_and_owned_witness :
  exists socket,
    In socket (sockets (serve_all demo_verify demo_lib (initial demo_users [])
                          [Socket_input (Connection hs_u1); Socket_input (Connection hs_u1)])) /\
    s_id socket = 1 /\ d_id (s_user socket) = id_u1.
Proof.
  destruct (X19_handles_are_live_and_owned demo_verify demo_lib demo_users []
              [Socket_input (Connection hs_u1); Socket_input (Connection hs_u1)] id_u1 1)
    as (socket & H1 & H2 & H3 & _).
  - reflexivity.
  - exists socket. split; [exact H1|]. split; [exact H2|exact H3].
Defined.

(** u1 sends an intent that has a text and nothing else. *)
Lemma X20_intent_without_recipient_witness :
  exists doc,
    messages (step demo_verify
                (serve_all demo_verify demo_lib (initial demo_users [])
                   [Socket_input (Connection hs_u1)])
                (PrivateMessage (s_id (mkSocket 0 demo_u1)) {[ "text" := "hi" ]} demo_env))
    = messages (serve_all demo_verify demo_lib (initial demo_users [])
                  [Socket_input (Connection hs_u1)]) ++ [doc] /\
    m_to doc = None.
Proof.
  destruct (X20_intent_without_recipient demo_verify demo_lib demo_users []
              [Socket_input (Connection hs_u1)] (mkSocket 0 demo_u1)
              {[ "text" := "hi" ]} demo_env) as (doc & Hm & _ & Hto & _).
  - simpl. auto.
  - vm_compute. reflexivity.
  - reflexivity.
  - reflexivity.
  - exists doc. split; [exact Hm|exact Hto].
Defined.

Lemma X21_stored_but_not_delivered_witness :
  new_packets (run demo_verify (initial demo_users []) [Connection hs_u1])
    (snd (private_message (mkSocket 0 demo_u1) (mkEnv 1000 false true) hi_u2
            (run demo_verify (initial demo_users []) [Connection hs_u1])))
    0
  = [].
Proof.
  destruct (X21_stored_but_not_delivered
              (run demo_verify (initial demo_users []) [Connection hs_u1])
              (mkSocket 0 demo_u1) hi_u2 (mkEnv 1000 false true) eq_refl eq_refl)
    as (_ & _ & H & _).
  exact (H 0).
Defined.

(** u1 stays registered while it sends a message that the store accepts,
    and while u2 disconnects. *)
Lemma X22_presence_of_others_is_untouched_witness :
  online (step demo_verify
            (run demo_verify (initial demo_users []) [Connection hs_u1; Connection hs_u2])
            (PrivateMessage 0 hi_u2 demo_env))
  = online (run demo_verify (initial demo_users []) [Connection hs_u1; Connection hs_u2]) /\
  Map_get id_u1
    (online (step demo_verify
               (run demo_verify (initial demo_users []) [Connection hs_u1; Connection hs_u2])
               (Disconnect 1)))
  = Map_get id_u1
      (online (run demo_verify (initial demo_users []) [Connection hs_u1; Connection hs_u2])).
Proof.
  destruct (X22_presence_of_others_is_untouched demo_verify
              (run demo_verify (initial demo_users []) [Connection hs_u1; Connection hs_u2])
              id_u1) as (Hmsg & _ & H).
  split.
  - apply Hmsg; reflexivity.
  - apply H. intros socket Hs. vm_compute in Hs. inversion Hs. discriminate.
Defined.

Lemma X23_email_registers_once_witness :
  post_api_register demo_lib ann_env
    (mkCredentials (Some "u1@example.org") (Some "other") None)
    (snd (post_api_register demo_lib ann_env ann_body (initial [] [])))
  = (Returned (inl (error_response 400 "email already taken")),
     snd (post_api_register demo_lib ann_env ann_body (initial [] []))).
Proof.
  apply (X23_email_registers_once demo_lib ann_env ann_env ann_body
           (mkCredentials (Some "u1@example.org") (Some "other") None)
           "u1@example.org" (initial [] [])).
  - reflexivity.
  - reflexivity.
  - discriminate.
  - reflexivity.
  - eexists. reflexivity.
  - reflexivity.
Defined.
